(** * ExploreViewContainer: control synchronisation, staleness and history

    A shallow embedding of
    [superset-frontend/src/explore/components/ExploreViewContainer/index.jsx]:
    the staleness memo ([chartIsStale]), the controls-changed effect
    ([changedControlKeys], [displayControlsChanged]), the debounced history
    synchroniser ([updateHistory]), the listener effects, the plugin-load
    effect and the mount-time query effect.

    Conventions.
    - A JavaScript value is a tree of type [jsval]; numbers are integers
      (no statement below depends on floating point).
    - A control snapshot ([props.controls]) is a finite map from control
      names to [Control] records.  [Object.keys] enumerates the map; the
      enumeration order of a JavaScript object is its insertion order, which
      the map does not record, so every statement below is about membership,
      not about positions.
    - React hooks are modelled by explicit state passing, one step per render
      pass; third-party functions (lodash, React, the DOM) are modelled from
      their documented behaviour. *)

From Stdlib Require Import ZArith List Bool String Lia.
From stdpp Require Import base gmap strings list fin_maps.
Import ListNotations.

Local Open Scope string_scope.
Local Open Scope list_scope.
Local Open Scope Z_scope.

(** ** JavaScript values and lodash's comparison functions *)

#[warnings="-register-all"]
Inductive jsval : Type :=
| VUndefined
| VNull
| VBool (b : bool)
| VNum (n : Z)
| VStr (s : string)
| VArr (items : list jsval)
| VObj (fields : list (string * jsval)).

(** [object[key]] on the field list of an object literal. *)
Fixpoint getField {A : Type} (key : string) (fields : list (string * A)) : option A :=
  match fields with
  | [] => None
  | (k, v) :: rest => if String.eqb k key then Some v else getField key rest
  end.

(** lodash [isObjectLike]: [value != null && typeof value == 'object']. *)
Definition isObjectLike (v : jsval) : bool :=
  match v with
  | VArr _ | VObj _ => true
  | _ => false
  end.

(** JavaScript truthiness of a value ([if (v)], [a && b], [!v]). *)
Definition truthy (v : jsval) : bool :=
  match v with
  | VUndefined | VNull => false
  | VBool b => b
  | VNum n => negb (n =? 0)
  | VStr s => negb (String.eqb s "")
  | VArr _ | VObj _ => true
  end.

(** lodash [isEqual]: primitives by value, arrays position by position,
    plain objects by having the same number of own keys and, for every key
    of the first, an equal value under that key in the second. *)
Fixpoint isEqual (a b : jsval) {struct a} : bool :=
  match a, b with
  | VUndefined, VUndefined => true
  | VNull, VNull => true
  | VBool x, VBool y => Bool.eqb x y
  | VNum x, VNum y => x =? y
  | VStr x, VStr y => String.eqb x y
  | VArr xs, VArr ys =>
      (fix equalArrays (xs ys : list jsval) {struct xs} : bool :=
         match xs, ys with
         | [], [] => true
         | x :: xs', y :: ys' => isEqual x y && equalArrays xs' ys'
         | _, _ => false
         end) xs ys
  | VObj fs, VObj gs =>
      Nat.eqb (length fs) (length gs) &&
      forallb (fun kv => match getField (fst kv) gs with
                         | Some w => isEqual (snd kv) w
                         | None => false
                         end) fs
  | _, _ => false
  end.

(** Removal of the fields named in [ignoreFields] from every object inside a
    value; arrays are traversed, primitives are left alone. *)
Fixpoint omitFields (ignoreFields : list string) (v : jsval) {struct v} : jsval :=
  match v with
  | VArr xs => VArr (List.map (omitFields ignoreFields) xs)
  | VObj fs =>
      VObj (List.filter
              (fun kv => negb (existsb (String.eqb (fst kv)) ignoreFields))
              (List.map (fun kv => (fst kv, omitFields ignoreFields (snd kv))) fs))
  | _ => v
  end.

(** Modelled from the spec: [areObjectsEqual] of [src/reduxUtils], which
    the component imports and whose body is outside the verified file.
    Called without options it is the "deep-equality" of the change
    classifier; called with [ignoreFields] it is "deep equality with one
    exception field ignored by name". *)
Definition areObjectsEqual (ignoreFields : list string) (obj1 obj2 : jsval) : bool :=
  match ignoreFields with
  | [] => isEqual obj1 obj2
  | _ => isEqual (omitFields ignoreFields obj1) (omitFields ignoreFields obj2)
  end.

(** ** Controls and snapshots *)

Record Control : Type := mkControl {
  value : jsval;
  validationErrors : option (list string);
  renderTrigger : bool;
  dontRefreshOnChange : bool
}.

Abbreviation Snapshot := (gmap string Control).

(** [Object.keys(controls)]. *)
Definition Object_keys {A : Type} (o : gmap string A) : list string :=
  List.map fst (map_to_list o).

(** [Object.values(controls)]. *)
Definition Object_values {A : Type} (o : gmap string A) : list A :=
  List.map snd (map_to_list o).

(** ** Staleness detector: the [chartIsStale] memo *)

(** The body of the [filter] callback of [chartIsStale], after both controls
    have been looked up: [value1] is the current value, [value2] the
    last-queried one. *)
Definition staleValueChanged (value1 value2 : jsval) : bool :=
  if isObjectLike value1 && isObjectLike value2
  then negb (areObjectsEqual ["datasourceWarning"] value1 value2)
  else negb (isEqual value1 value2).

Definition chartIsStale (lastQueriedControls : option Snapshot)
                        (controls : Snapshot) : bool :=
  match lastQueriedControls with
  | Some lastQueried =>
      let changedControlKeys :=
        List.filter
          (fun key =>
             match lastQueried !! key with
             | None => false
             | Some lastControl =>
                 match controls !! key with
                 | Some control =>
                     staleValueChanged (value control) (value lastControl)
                 | None => false
                 end
             end)
          (Object_keys controls) in
      existsb
        (fun key =>
           match controls !! key with
           | Some control =>
               negb (renderTrigger control) && negb (dontRefreshOnChange control)
           | None => false
           end)
        changedControlKeys
  | None => false
  end.

(** ** Change classifier: the effect that runs when controls change *)

Definition changedControlKeys (previousControls controls : Snapshot) : list string :=
  List.filter
    (fun key =>
       match previousControls !! key with
       | None => false
       | Some previous =>
           match controls !! key with
           | Some control =>
               negb (areObjectsEqual [] (value control) (value previous))
           | None => false
           end
       end)
    (Object_keys controls).

Definition displayControlsChanged (previousControls controls : Snapshot) : list string :=
  List.filter
    (fun key =>
       match controls !! key with
       | Some control => renderTrigger control
       | None => false
       end)
    (changedControlKeys previousControls controls).

(** ** Side effects of the component

    What the component does to the outside is recorded as a list of
    [Action]s: the action creators it calls through [props.actions] and the
    helper it calls to re-render the chart. *)

Inductive LogEventName : Type :=
| LOG_ACTIONS_MOUNT_EXPLORER
| LOG_ACTIONS_CHANGE_EXPLORE_CONTROLS.

Inductive Action : Type :=
| LogEvent (eventName : LogEventName)
| TriggerQuery (isTriggered : bool) (chartId : jsval)
| DynamicPluginControlsReady
| ReRenderChart (controlsChanged : list string).

(** React's dependency test of [useEffect]: the effect runs after the first
    render, and after a later render when the dependencies differ from those
    of the render before. *)
Definition depsChanged {A : Type} `{EqDecision A} (lastDeps : option A) (deps : A) : bool :=
  match lastDeps with
  | None => true
  | Some last => negb (bool_decide (last = deps))
  end.

(** Modelled from the spec: [usePrevious] of [@superset-ui/core], whose body
    is outside the verified file; it yields what its argument was on the
    previous render pass ("was true last pass", "the state of controls in
    the previous render"), and [undefined] on the first.  [ref] is what the
    hook keeps between passes; the result is the value handed to the render
    and the new content of the ref. *)
Definition usePrevious {A : Type} (ref : option A) (value : A) : option A * option A :=
  (ref, Some value).

(** *** The controls-changed effect (the part that classifies) *)

(** [previousControls] is [usePrevious(props.controls)], absent on the first
    render; [vizTypeMatches] is the comparison
    [props.chart.latestQueryFormData.viz_type === props.controls.viz_type.value].
    The statement that refreshes the datasource metadata takes no part in
    the classification and is left out. *)
Definition controlsChangedEffect (previousControls : option Snapshot)
                                 (vizTypeMatches : bool)
                                 (controls : Snapshot) : list Action :=
  match previousControls with
  | Some previous =>
      if vizTypeMatches then
        let displayed := displayControlsChanged previous controls in
        if (0 <? length displayed)%nat then [ReRenderChart displayed] else []
      else []
  | None => []
  end.

(** *** Telemetry in the render body *)

(** [if (chartIsStale) props.actions.logEvent(LOG_ACTIONS_CHANGE_EXPLORE_CONTROLS)],
    a statement of the function body: it is executed by every render pass. *)
Definition renderLogEvents (lastQueriedControls : option Snapshot)
                           (controls : Snapshot) : list Action :=
  if chartIsStale lastQueriedControls controls
  then [LogEvent LOG_ACTIONS_CHANGE_EXPLORE_CONTROLS]
  else [].

(** What makes the component render again. *)
Inductive RenderCause : Type :=
| ControlsChanged (controls : Snapshot)  (* the store delivers new [props.controls] *)
| QueryRun                               (* [onQuery]: [setLastQueriedControls(props.controls)] *)
| OtherChange.                           (* any other prop or state, e.g. [toggleCollapse] *)

Record StaleState : Type := mkStaleState {
  props_controls : Snapshot;
  lastQueriedControls : option Snapshot
}.

(** [useState(props.controls)] at mount. *)
Definition mountStaleState (controls : Snapshot) : StaleState :=
  mkStaleState controls (Some controls).

Definition applyCause (st : StaleState) (cause : RenderCause) : StaleState :=
  match cause with
  | ControlsChanged controls => mkStaleState controls (lastQueriedControls st)
  | QueryRun => mkStaleState (props_controls st) (Some (props_controls st))
  | OtherChange => st
  end.

(** One render pass: the value of the [chartIsStale] memo and the telemetry
    the body emits. *)
Definition renderPass (st : StaleState) : bool * list Action :=
  (chartIsStale (lastQueriedControls st) (props_controls st),
   renderLogEvents (lastQueriedControls st) (props_controls st)).

Fixpoint renderPassesFrom (st : StaleState) (causes : list RenderCause)
  : list (bool * list Action) :=
  match causes with
  | [] => []
  | cause :: rest =>
      let st' := applyCause st cause in
      renderPass st' :: renderPassesFrom st' rest
  end.

(** The mount pass followed by one pass per cause. *)
Definition renderPasses (controls : Snapshot) (causes : list RenderCause)
  : list (bool * list Action) :=
  renderPass (mountStaleState controls)
    :: renderPassesFrom (mountStaleState controls) causes.

(** Number of passes on which [flag] is [true] while it was [false] on the
    pass before ([wasStale] is the value before the first pass of the list). *)
Fixpoint transitionsIntoStale (wasStale : bool) (flags : list bool) : nat :=
  match flags with
  | [] => 0%nat
  | flag :: rest =>
      ((if negb wasStale && flag then 1 else 0) + transitionsIntoStale flag rest)%nat
  end.

Definition countStale (flags : list bool) : nat :=
  length (List.filter (fun flag => flag) flags).

(** A pass emits the telemetry event if its [chartIsStale] is true, and
    nothing otherwise. *)
Definition emitsIffStale (pass : bool * list Action) : Prop :=
  snd pass = if fst pass
             then [LogEvent LOG_ACTIONS_CHANGE_EXPLORE_CONTROLS]
             else [].

(** *** The mount-time query effect *)

(** [control.validationErrors && control.validationErrors.length > 0]. *)
Definition hasValidationErrors (control : Control) : bool :=
  match validationErrors control with
  | Some errors => (0 <? length errors)%nat
  | None => false
  end.

(** The effect with the empty dependency list: it runs once, after the first
    render. *)
Definition mountQueryEffect (controls : Snapshot) (chartId : jsval) : list Action :=
  let hasError := existsb hasValidationErrors (Object_values controls) in
  if negb hasError then [TriggerQuery true chartId] else [].

(** A control whose change asks for a new query (sections 4.2 and 4.3 of the
    specification): neither a [renderTrigger] nor a [dontRefreshOnChange]
    control. *)
Definition queryAffecting (control : Control) : bool :=
  negb (renderTrigger control) && negb (dontRefreshOnChange control).

(** *** The plugin-load effect *)

(** An entry of [dynamicPluginContext.dynamicPlugins]; [mounting] may be
    absent. *)
Record DynamicPlugin : Type := mkDynamicPlugin { mounting : option bool }.

(** [dynamicPlugin && dynamicPlugin.mounting]; [None] is [undefined]. *)
Definition isDynamicPluginLoading (dynamicPlugins : gmap string DynamicPlugin)
                                  (vizType : string) : option bool :=
  match dynamicPlugins !! vizType with
  | Some dynamicPlugin => mounting dynamicPlugin
  | None => None
  end.

(** Truthiness of a value that is [undefined], [false] or [true]. *)
Definition isTrue (flag : option bool) : bool :=
  match flag with
  | Some true => true
  | _ => false
  end.

(** Hook state kept between render passes: the ref of
    [usePrevious(isDynamicPluginLoading)] and the dependencies the effect
    last saw. *)
Record PluginHooks : Type := mkPluginHooks {
  previousLoadingRef : option (option bool);
  pluginEffectDeps : option (option bool)
}.

Definition pluginHooksInit : PluginHooks := mkPluginHooks None None.

(** One render pass: [wasDynamicPluginLoading] is read from [usePrevious]
    ([undefined] when there is no previous pass), the effect runs when its
    dependency [isDynamicPluginLoading] changed, and in it the callback is
    invoked under [wasDynamicPluginLoading && !isDynamicPluginLoading]. *)
Definition pluginLoadPass (hooks : PluginHooks) (loading : option bool)
  : PluginHooks * list Action :=
  let '(previous, ref) := usePrevious (previousLoadingRef hooks) loading in
  let wasDynamicPluginLoading := default None previous in
  let effectRuns := depsChanged (pluginEffectDeps hooks) loading in
  let actions :=
    if effectRuns && (isTrue wasDynamicPluginLoading && negb (isTrue loading))
    then [DynamicPluginControlsReady]
    else [] in
  (mkPluginHooks ref (Some loading), actions).

Fixpoint pluginLoadPasses (hooks : PluginHooks) (observed : list (option bool))
  : list (list Action) :=
  match observed with
  | [] => []
  | loading :: rest =>
      let '(hooks', actions) := pluginLoadPass hooks loading in
      actions :: pluginLoadPasses hooks' rest
  end.

(** The hook state after a run of passes. *)
Definition pluginHooksAfter (hooks : PluginHooks) (observed : list (option bool))
  : PluginHooks :=
  fold_left (fun h loading => fst (pluginLoadPass h loading)) observed hooks.

(** The edge named by the specification: [mounting] was true on the previous
    pass and is false or absent on this one. *)
Definition finishedLoadingEdge (previous current : option bool) : bool :=
  isTrue previous && negb (isTrue current).

(** ** History synchroniser *)

(** *** lodash [debounce(func, wait)] with its default options

    Only the trailing edge invokes [func] ([leading] is false, there is no
    [maxWait]).  Time is in milliseconds; [timerId] holds the instant at
    which the pending [setTimeout] is due. *)
Section Debounce.
Context {Args : Type}.
Variable wait : Z.

Record Debounced : Type := mkDebounced {
  lastArgs : option Args;
  lastCallTime : option Z;
  timerId : option Z
}.

Definition debouncedInit : Debounced := mkDebounced None None None.

(** [shouldInvoke(time)]. *)
Definition shouldInvoke (d : Debounced) (time : Z) : bool :=
  match lastCallTime d with
  | None => true
  | Some last => (wait <=? time - last) || (time - last <? 0)
  end.

(** [timerExpired()], run at instant [time]: either the trailing edge
    (the timer is cleared and [func] is invoked with [lastArgs], if any),
    or the timer is restarted for [remainingWait(time)]. *)
Definition timerExpired (d : Debounced) (time : Z) : Debounced * list (Z * Args) :=
  if shouldInvoke d time then
    match lastArgs d with
    | Some args => (mkDebounced None (lastCallTime d) None, [(time, args)])
    | None => (mkDebounced None (lastCallTime d) None, [])
    end
  else
    let timeSinceLastCall := time - default 0 (lastCallTime d) in
    (mkDebounced (lastArgs d) (lastCallTime d)
                 (Some (time + (wait - timeSinceLastCall))), []).

(** A call of the debounced function at instant [time]: the arguments and
    the call time are recorded, and a timer is started unless one is
    pending.  With [leading] false no call invokes [func] itself. *)
Definition debouncedCall (d : Debounced) (time : Z) (args : Args) : Debounced :=
  mkDebounced (Some args) (Some time)
              (match timerId d with
               | None => Some (time + wait)
               | Some due => Some due
               end).

(** The event loop between two calls: the pending timer fires when it is
    due no later than [until] ([None]: no further call ever comes).  A
    timer that expires is restarted at most once before it invokes, so two
    rounds settle it ([fireTimers_settled] below).  A timer due at the very
    instant of a call is taken to fire before the call; the browser may as
    well run the call first, so no statement below rests on that order. *)
Fixpoint fireTimers (rounds : nat) (until : option Z) (d : Debounced)
  : Debounced * list (Z * Args) :=
  match rounds with
  | O => (d, [])
  | S rounds' =>
      match timerId d with
      | Some due =>
          if match until with Some t => due <=? t | None => true end then
            let '(d', out) := timerExpired d due in
            let '(d'', out') := fireTimers rounds' until d' in
            (d'', out ++ out')
          else (d, [])
      | None => (d, [])
      end
  end.

Fixpoint debouncedCalls (d : Debounced) (calls : list (Z * Args))
  : Debounced * list (Z * Args) :=
  match calls with
  | [] => (d, [])
  | (time, args) :: rest =>
      let '(d1, out1) := fireTimers 2 (Some time) d in
      let '(d2, out2) := debouncedCalls (debouncedCall d1 time args) rest in
      (d2, out1 ++ out2)
  end.

(** All invocations of [func] caused by a sequence of calls (instant and
    arguments of each), the time after the last call included; and the
    state the debounced function is left in. *)
Definition debounceSession (calls : list (Z * Args)) : Debounced * list (Z * Args) :=
  let '(d, out) := debouncedCalls debouncedInit calls in
  let '(d', out') := fireTimers 2 None d in
  (d', out ++ out').

(** Every call comes, not before the previous one and less than [wait]
    after it. *)
Fixpoint withinWindow (previous : Z) (calls : list (Z * Args)) : bool :=
  match calls with
  | [] => true
  | (time, _) :: rest =>
      (previous <=? time) && (time - previous <? wait) && withinWindow time rest
  end.

(** The state between two calls of a burst: the last call, at [time] with
    [args], is recorded and a timer is pending that is due after [time]
    and no later than [time + wait]. *)
Definition pendingSince (d : Debounced) (time : Z) (args : Args) : Prop :=
  lastArgs d = Some args /\
  lastCallTime d = Some time /\
  exists due, timerId d = Some due /\ time < due <= time + wait.
End Debounce.

Arguments Debounced Args : clear implicits.

(** *** The debounced function: one run of the persist routine *)

(** The query definition: the two keys the routine reads, and the rest. *)
Record FormData : Type := mkFormData {
  slice_id : jsval;
  url_params : option (gmap string jsval);
  form_fields : gmap string jsval
}.

(** The arguments of [updateHistory], in the order of its parameter list. *)
Record UpdateArgs : Type := mkUpdateArgs {
  formData : FormData;
  datasourceId : jsval;
  datasourceType : jsval;
  isReplace : bool;
  standalone : bool;
  force : bool;
  title : jsval;
  tabId : jsval
}.

Record Url : Type := mkUrl {
  url_pathname : string;
  url_search : gmap string jsval
}.

(** What the module imports from files outside the verified one, taken as
    parameters: the names of the URL parameters
    ([URL_PARAMS.*.name]), the list [RESERVED_CHART_URL_PARAMS], and the
    helpers [ensureAppRoot] and [mountExploreUrl]. *)
Record Imports : Type := mkImports {
  URL_PARAMS_sliceId_name : string;
  URL_PARAMS_datasourceId_name : string;
  URL_PARAMS_datasourceType_name : string;
  URL_PARAMS_formDataKey_name : string;
  URL_PARAMS_standalone_name : string;
  RESERVED_CHART_URL_PARAMS : list string;
  ensureAppRoot : string -> string;
  mountExploreUrl : option string -> gmap string jsval -> bool -> Url
}.

(** An entry of the session history: the arguments of [replaceState] or
    [pushState]. *)
Record HistoryEntry : Type := mkHistoryEntry {
  entry_state : FormData;
  entry_title : jsval;
  entry_url : Url
}.

(** The browser window as the routine sees it: the address bar and the
    session history, current entry first. *)
Record Window : Type := mkWindow {
  location_pathname : string;
  location_search : gmap string jsval;
  history_entries : list HistoryEntry
}.

(** [window.history.replaceState(state, title, url)]: the current entry is
    overwritten and the address bar shows [url]. *)
Definition replaceState (state : FormData) (title : jsval) (url : Url)
                        (w : Window) : Window :=
  mkWindow (url_pathname url) (url_search url)
           (mkHistoryEntry state title url :: tail (history_entries w)).

(** [window.history.pushState(state, title, url)]: a new entry is added
    and the address bar shows [url]. *)
Definition pushState (state : FormData) (title : jsval) (url : Url)
                     (w : Window) : Window :=
  mkWindow (url_pathname url) (url_search url)
           (mkHistoryEntry state title url :: history_entries w).

(** Modelled from the spec: [getUrlParam] of [src/utils/urlUtils], whose
    body is outside the verified file; it "reads the existing
    form-data key from the URL", [null] when the parameter is not there. *)
Definition getUrlParam (name : string) (w : Window) : jsval :=
  default VNull (location_search w !! name).

(** Modelled from the spec: [postFormData] and [putFormData] of
    [src/explore/exploreUtils/formData], whose bodies are outside the
    verified file; they are the calls [put(formData, chartId?, tabId) -> key]
    and [update(key, formData, chartId?, tabId) -> void] of the persistence
    store.  A call is recorded as the request it issues, with the arguments
    in the order the routine passes them; what the store answers is an input
    of the run: [Resolved key] (for [update] the value is not looked at), or
    [Rejected] when the call fails. *)
Inductive Request : Type :=
| PostFormData (datasourceId datasourceType : jsval) (formData : FormData)
               (chartId tabId : jsval)
| PutFormData (datasourceId datasourceType key : jsval) (formData : FormData)
              (chartId tabId : jsval).

Inductive Response : Type :=
| Resolved (result : jsval)
| Rejected.

Inductive StateModifier : Type := ReplaceStateModifier | PushStateModifier.

Record PersistOutcome : Type := mkPersistOutcome {
  window_after : Window;
  requests : list Request;
  warnings : list string
}.

Section Persist.
Variable imports : Imports.

(** [RESERVED_CHART_URL_PARAMS.includes(key)]. *)
Definition isReservedParam (key : string) : bool :=
  existsb (String.eqb key) (RESERVED_CHART_URL_PARAMS imports).

(** The callback of the [forEach]: an entry whose key is not reserved is
    written into [additionalParam]. *)
Definition copyEntry (additionalParam : gmap string jsval)
                     (entry : string * jsval) : gmap string jsval :=
  if negb (isReservedParam (fst entry))
  then <[fst entry := snd entry]> additionalParam
  else additionalParam.

(** The [forEach] over [Object.entries(urlParams)]. *)
Definition copyUrlParams (urlParams : gmap string jsval)
                         (additionalParam : gmap string jsval) : gmap string jsval :=
  fold_left copyEntry (map_to_list urlParams) additionalParam.

(** The object [additionalParam] after the [if (chartId)] statement: the
    parameters of the address bar, with the chart identity, or else the
    datasource identity, written over them. *)
Definition identityParams (args : UpdateArgs) (w : Window) : gmap string jsval :=
  let chartId := slice_id (formData args) in
  let additionalParam := location_search w in
  if truthy chartId
  then <[URL_PARAMS_sliceId_name imports := chartId]> additionalParam
  else <[URL_PARAMS_datasourceType_name imports := datasourceType args]>
         (<[URL_PARAMS_datasourceId_name imports := datasourceId args]>
            additionalParam).

(** The object [additionalParam] as it stands when the [try] block is
    entered; [payload?.url_params || {}] is the empty object when the
    query definition has no [url_params]. *)
Definition additionalParamOf (args : UpdateArgs) (w : Window) : gmap string jsval :=
  let payload := formData args in
  let urlParams := default ∅ (url_params payload) in
  copyUrlParams urlParams (identityParams args w).

(** The second argument of [mountExploreUrl]:
    [{ [URL_PARAMS.formDataKey.name]: key, ...additionalParam }]. *)
Definition exploreUrlSearch (args : UpdateArgs) (w : Window) (key : jsval)
  : gmap string jsval :=
  additionalParamOf args w ∪ {[ URL_PARAMS_formDataKey_name imports := key ]}.

(** The request issued before the routine suspends. *)
Definition persistRequest (args : UpdateArgs) (w : Window) : Request :=
  let chartId := slice_id (formData args) in
  if isReplace args then
    PostFormData (datasourceId args) (datasourceType args) (formData args)
                 chartId (tabId args)
  else
    PutFormData (datasourceId args) (datasourceType args)
                (getUrlParam (URL_PARAMS_formDataKey_name imports) w)
                (formData args) chartId (tabId args).

Definition stateModifierOf (args : UpdateArgs) : StateModifier :=
  if isReplace args then ReplaceStateModifier else PushStateModifier.

(** [window.history[stateModifier](payload, title, url)]. *)
Definition applyStateModifier (m : StateModifier) (state : FormData)
                              (title : jsval) (url : Url) (w : Window) : Window :=
  match m with
  | ReplaceStateModifier => replaceState state title url w
  | PushStateModifier => pushState state title url w
  end.

(** [window.location.pathname.startsWith(ensureAppRoot('/explore'))]. *)
Definition routeStillActive (w : Window) : bool :=
  String.prefix (ensureAppRoot imports "/explore") (location_pathname w).

(** One run of the function given to [debounce].  [w] is the window when
    the run starts; the run suspends at its [await], and [inFlight] is what
    the user and the rest of the page do to the window until the store
    answers with [response]; the run then resumes on [inFlight w].  Of the
    failures that the [try] block catches the model has the rejection of
    the store call; an exception thrown by [getUrlParam], by
    [mountExploreUrl] or by the history call itself is outside it. *)
Definition updateHistoryBody (args : UpdateArgs) (w : Window)
                             (response : Response)
                             (inFlight : Window -> Window) : PersistOutcome :=
  let payload := formData args in
  let request := persistRequest args w in
  let stateModifier := stateModifierOf args in
  let resumed := inFlight w in
  match response with
  | Resolved result =>
      let key :=
        if isReplace args then result
        else getUrlParam (URL_PARAMS_formDataKey_name imports) w in
      if routeStillActive resumed then
        let url :=
          mountExploreUrl imports
            (if standalone args
             then Some (URL_PARAMS_standalone_name imports) else None)
            (exploreUrlSearch args w key)
            (force args) in
        mkPersistOutcome
          (applyStateModifier stateModifier payload (title args) url resumed)
          [request] []
      else mkPersistOutcome resumed [request] []
  | Rejected =>
      mkPersistOutcome resumed [request] ["Failed at altering browser history"]
  end.
End Persist.

(** [updateHistory = debounce(..., 1000)]: the invocations of the persist
    routine that a sequence of calls of [updateHistory] causes. *)
Definition updateHistory (calls : list (Z * UpdateArgs))
  : Debounced UpdateArgs * list (Z * UpdateArgs) :=
  debounceSession 1000 calls.

(** ** Event bridge: the [popstate] and [keydown] listener effects *)

(** A handler closure is known by its identity: [useCallback] returns the
    same function while its dependencies are unchanged and a new one
    otherwise. *)
Abbreviation Handler := nat.

Inductive EventTarget : Type := TWindow | TDocument.
Inductive EventType : Type := Popstate | Keydown.

Inductive ListenerOp : Type :=
| AddEventListener (target : EventTarget) (type : EventType) (handler : Handler)
| RemoveEventListener (target : EventTarget) (type : EventType) (handler : Handler).

(** The listeners registered on each target for each event type. *)
Definition Registry : Type := EventTarget -> EventType -> list Handler.

Definition noListeners : Registry := fun _ _ => [].

Definition sameTarget (a b : EventTarget) : bool :=
  match a, b with
  | TWindow, TWindow | TDocument, TDocument => true
  | _, _ => false
  end.

Definition sameType (a b : EventType) : bool :=
  match a, b with
  | Popstate, Popstate | Keydown, Keydown => true
  | _, _ => false
  end.

Definition setListeners (reg : Registry) (target : EventTarget) (type : EventType)
                        (handlers : list Handler) : Registry :=
  fun target' type' =>
    if sameTarget target target' && sameType type type'
    then handlers
    else reg target' type'.

(** The DOM's [addEventListener] does nothing when the same function is
    already registered; [removeEventListener] does nothing when it is not. *)
Definition applyListenerOp (reg : Registry) (op : ListenerOp) : Registry :=
  match op with
  | AddEventListener target type handler =>
      let current := reg target type in
      if existsb (Nat.eqb handler) current then reg
      else setListeners reg target type (current ++ [handler])
  | RemoveEventListener target type handler =>
      setListeners reg target type
        (List.filter (fun h => negb (Nat.eqb h handler)) (reg target type))
  end.

(** The registries passed through while a list of operations is carried
    out, one after each operation. *)
Fixpoint applyListenerOps (reg : Registry) (ops : list ListenerOp) : list Registry :=
  match ops with
  | [] => []
  | op :: rest =>
      let reg' := applyListenerOp reg op in
      reg' :: applyListenerOps reg' rest
  end.

Definition lastRegistry (reg : Registry) (visited : list Registry) : Registry :=
  List.last visited reg.

(** Hook state of one listener effect: the ref of [usePrevious(handler)]
    and the dependencies [[handler, previousHandler]] of the pass on which
    the effect last ran (its cleanup closes over that pass's handler). *)
Record ListenerHooks : Type := mkListenerHooks {
  previousHandlerRef : option Handler;
  listenerEffectDeps : option (Handler * option Handler)
}.

Definition listenerHooksInit : ListenerHooks := mkListenerHooks None None.

(** [usePrevious(handler)] as the render reads it. *)
Definition previousHandler (hooks : ListenerHooks) (handler : Handler) : option Handler :=
  fst (usePrevious (previousHandlerRef hooks) handler).

(** Whether the effect runs on this pass. *)
Definition listenerEffectRuns (hooks : ListenerHooks) (handler : Handler) : bool :=
  depsChanged (listenerEffectDeps hooks) (handler, previousHandler hooks handler).

(** The cleanup returned by the effect of an earlier pass; React runs it
    before the effect runs again. *)
Definition listenerCleanup (target : EventTarget) (type : EventType)
                           (hooks : ListenerHooks) (handler : Handler) : list ListenerOp :=
  if listenerEffectRuns hooks handler then
    match listenerEffectDeps hooks with
    | Some (attached, _) => [RemoveEventListener target type attached]
    | None => []
    end
  else [].

(** The effect body: [previousTarget] is the object the previous handler is
    removed from, [target] the one the new handler is added to. *)
Definition listenerEffect (previousTarget target : EventTarget) (type : EventType)
                          (hooks : ListenerHooks) (handler : Handler) : list ListenerOp :=
  if listenerEffectRuns hooks handler then
    match previousHandler hooks handler with
    | Some previous => [RemoveEventListener previousTarget type previous]
    | None => []
    end ++ [AddEventListener target type handler]
  else [].

Definition listenerHooksAfter (hooks : ListenerHooks) (handler : Handler) : ListenerHooks :=
  mkListenerHooks (snd (usePrevious (previousHandlerRef hooks) handler))
                  (Some (handler, previousHandler hooks handler)).

Record BridgeState : Type := mkBridgeState {
  popstateHooks : ListenerHooks;
  keydownHooks : ListenerHooks;
  registry : Registry
}.

Definition bridgeInit : BridgeState :=
  mkBridgeState listenerHooksInit listenerHooksInit noListeners.

(** The listener operations of one render pass, in the order React carries
    them out: the cleanups of the effects that run again, then the effect
    bodies, each group in the order of the hooks in the component.  The
    [popstate] effect removes from and adds to [window]; the [keydown]
    effect removes the previous handler from [window], and adds to and
    cleans up on [document]. *)
Definition bridgeOps (st : BridgeState) (handlePopstate handleKeydown : Handler)
  : list ListenerOp :=
  listenerCleanup TWindow Popstate (popstateHooks st) handlePopstate
  ++ listenerCleanup TDocument Keydown (keydownHooks st) handleKeydown
  ++ listenerEffect TWindow TWindow Popstate (popstateHooks st) handlePopstate
  ++ listenerEffect TWindow TDocument Keydown (keydownHooks st) handleKeydown.

(** One render pass with the given handler closures: the new state and the
    registries passed through while the effects are carried out. *)
Definition bridgePass (st : BridgeState) (handlers : Handler * Handler)
  : BridgeState * list Registry :=
  let '(handlePopstate, handleKeydown) := handlers in
  let visited := applyListenerOps (registry st)
                   (bridgeOps st handlePopstate handleKeydown) in
  (mkBridgeState (listenerHooksAfter (popstateHooks st) handlePopstate)
                 (listenerHooksAfter (keydownHooks st) handleKeydown)
                 (lastRegistry (registry st) visited),
   visited).

(** A run of render passes: for each pass its handlers, the registries
    passed through and the registry it leaves. *)
Fixpoint bridgePasses (st : BridgeState) (renders : list (Handler * Handler))
  : list ((Handler * Handler) * list Registry * Registry) :=
  match renders with
  | [] => []
  | handlers :: rest =>
      let '(st', visited) := bridgePass st handlers in
      (handlers, visited, registry st') :: bridgePasses st' rest
  end.

Fixpoint bridgeStateAfter (st : BridgeState) (renders : list (Handler * Handler))
  : BridgeState :=
  match renders with
  | [] => st
  | handlers :: rest => bridgeStateAfter (fst (bridgePass st handlers)) rest
  end.

(** Teardown: the cleanups of the effects that ran last. *)
Definition bridgeUnmount (st : BridgeState) : Registry :=
  let ops :=
    match listenerEffectDeps (popstateHooks st) with
    | Some (attached, _) => [RemoveEventListener TWindow Popstate attached]
    | None => []
    end ++
    match listenerEffectDeps (keydownHooks st) with
    | Some (attached, _) => [RemoveEventListener TDocument Keydown attached]
    | None => []
    end in
  lastRegistry (registry st) (applyListenerOps (registry st) ops).

(** At most one listener on each of the two event sources. *)
Definition atMostOneListener (reg : Registry) : Prop :=
  (length (reg TWindow Popstate) <= 1)%nat /\
  (length (reg TDocument Keydown) <= 1)%nat.

(** Exactly the given handlers, and nothing else, are listening. *)
Definition listeningExactly (reg : Registry) (handlers : Handler * Handler) : Prop :=
  reg TWindow Popstate = [fst handlers] /\
  reg TDocument Keydown = [snd handlers].

(** The state the bridge is in between two render passes, [last] being the
    handlers of the latest pass ([None] before the first): each effect
    remembers the handler it attached, that handler is the only listener on
    its source, and nothing listens to [keydown] on [window]. *)
Definition bridgeBetweenPasses (st : BridgeState)
                               (last : option (Handler * Handler)) : Prop :=
  registry st TWindow Keydown = [] /\
  match last with
  | None =>
      popstateHooks st = listenerHooksInit /\
      keydownHooks st = listenerHooksInit /\
      registry st TWindow Popstate = [] /\
      registry st TDocument Keydown = []
  | Some (handlePopstate, handleKeydown) =>
      (exists p, popstateHooks st = mkListenerHooks (Some handlePopstate)
                                                    (Some (handlePopstate, p))) /\
      (exists p, keydownHooks st = mkListenerHooks (Some handleKeydown)
                                                   (Some (handleKeydown, p))) /\
      registry st TWindow Popstate = [handlePopstate] /\
      registry st TDocument Keydown = [handleKeydown]
  end.

(** ** Sample data for the scenarios *)

(** A single control [granularity], an ordinary (query-affecting) one. *)
Definition granularityIs (v : string) : Snapshot :=
  {[ "granularity" := mkControl (VStr v) None false false ]}.

(** [props.controls.viz_type.value], which the controls-changed effect reads
    on every pass that has a previous snapshot; [None] when the snapshot has
    no [viz_type] control, where the source throws. *)
Definition controlsVizType (controls : Snapshot) : option jsval :=
  value <$> controls !! "viz_type".

(** The controls of a table chart: [viz_type] and a time grain. *)
Definition tableChartWithGrain (grain : string) : Snapshot :=
  {[ "viz_type" := mkControl (VStr "table") None false false;
     "granularity" := mkControl (VStr grain) None false false ]}.

(** A single control [color_scheme] with [renderTrigger: true]. *)
Definition colorSchemeIs (v : string) (errors : option (list string)) : Snapshot :=
  {[ "color_scheme" := mkControl (VStr v) errors true false ]}.

(** The imports as the specification's URL surface names them, for a page
    served at the root: the reserved parameters are those of the chart id,
    the datasource id, the datasource type and the form-data key;
    [mountExploreUrl] yields the explore path with the given parameters,
    plus [standalone] (and [force]) for the standalone endpoint. *)
Definition sampleImports : Imports :=
  mkImports "slice_id" "datasource_id" "datasource_type" "form_data_key"
            "standalone"
            ["form_data_key"; "slice_id"; "datasource_id"; "datasource_type"]
            (fun path => path)
            (fun endpointType search force =>
               mkUrl "/explore/"
                     (match endpointType with
                      | Some _ =>
                          <["standalone" := VNum 1]>
                            (if force then <["force" := VStr "1"]> search else search)
                      | None => search
                      end)).

(** A saved chart (id 42) whose query definition carries two extra URL
    parameters: [foo], which the address bar also has, and the reserved
    [slice_id]. *)
Definition sampleFormData : FormData :=
  mkFormData (VNum 42)
             (Some {[ "foo" := VStr "fromQuery"; "slice_id" := VNum 999 ]})
             {[ "viz_type" := VStr "table" ]}.

Definition sampleArgs (replace : bool) : UpdateArgs :=
  mkUpdateArgs sampleFormData (VNum 3) (VStr "table") replace false false
               VUndefined (VStr "tab-1").

(** The explore page, opened with a form-data key and a parameter [foo];
    its history holds the entry of the page itself. *)
Definition sampleWindow : Window :=
  mkWindow "/explore/"
           {[ "form_data_key" := VStr "oldKey"; "foo" := VStr "fromAddressBar" ]}
           [mkHistoryEntry sampleFormData VUndefined
              (mkUrl "/explore/" {[ "form_data_key" := VStr "oldKey" ]})].

(** The user leaves for a dashboard while the request is in flight. *)
Definition navigateAway (w : Window) : Window :=
  mkWindow "/superset/dashboard/1/" ∅
           (mkHistoryEntry sampleFormData VUndefined (mkUrl "/superset/dashboard/1/" ∅)
              :: history_entries w).

(** Nothing happens to the window while the request is in flight. *)
Definition stayOnPage (w : Window) : Window := w.

(** A call of [addHistory()] (no replace) for the chart 42 with the given
    time grain. *)
Definition queryArgs (grain : string) : UpdateArgs :=
  mkUpdateArgs (mkFormData (VNum 42) None {[ "granularity" := VStr grain ]})
               (VNum 3) (VStr "table") false false false
               VUndefined (VStr "tab-1").

(** An ad-hoc filter value, with or without the annotation field. *)
Definition adhocFilters (warning : bool) : jsval :=
  VArr [VObj ([("clause", VStr "WHERE"); ("subject", VStr "country")]
              ++ if warning then [("datasourceWarning", VBool true)] else [])].

Definition filtersAre (warning : bool) : Snapshot :=
  {[ "adhoc_filters" := mkControl (adhocFilters warning) None false false ]}.

(** ** Well-formed values

    An object literal of JavaScript has each key once.  [wellFormed] says so
    of a [jsval], at every depth. *)

Fixpoint uniqueKeys (keys : list string) : bool :=
  match keys with
  | [] => true
  | key :: rest => negb (existsb (String.eqb key) rest) && uniqueKeys rest
  end.

Fixpoint wellFormed (v : jsval) {struct v} : bool :=
  match v with
  | VArr xs => forallb wellFormed xs
  | VObj fs =>
      uniqueKeys (List.map fst fs) && forallb (fun kv => wellFormed (snd kv)) fs
  | _ => true
  end.

(** Every control of the snapshot holds a well-formed value. *)
Definition snapshotWellFormed (controls : Snapshot) : Prop :=
  forall (name : string) (control : Control),
    controls !! name = Some control -> wellFormed (value control) = true.

(** Induction on values, with the hypothesis available for every item of an
    array and every field of an object. *)
Section JsvalInduction.
Variable P : jsval -> Prop.
Hypothesis P_undefined : P VUndefined.
Hypothesis P_null : P VNull.
Hypothesis P_bool : forall b, P (VBool b).
Hypothesis P_num : forall n, P (VNum n).
Hypothesis P_str : forall s, P (VStr s).
Hypothesis P_arr : forall xs, Forall P xs -> P (VArr xs).
Hypothesis P_obj : forall fs, Forall (fun kv => P (snd kv)) fs -> P (VObj fs).

Fixpoint jsval_nested_ind (v : jsval) : P v :=
  match v with
  | VUndefined => P_undefined
  | VNull => P_null
  | VBool b => P_bool b
  | VNum n => P_num n
  | VStr s => P_str s
  | VArr xs =>
      P_arr xs
        ((fix items (xs : list jsval) : Forall P xs :=
            match xs with
            | [] => @List.Forall_nil _ P
            | x :: rest =>
                @List.Forall_cons _ P x rest (jsval_nested_ind x) (items rest)
            end) xs)
  | VObj fs =>
      P_obj fs
        ((fix fields (fs : list (string * jsval))
            : Forall (fun kv => P (snd kv)) fs :=
            match fs with
            | [] => @List.Forall_nil _ (fun kv => P (snd kv))
            | kv :: rest =>
                @List.Forall_cons _ (fun kv => P (snd kv)) kv rest
                  (jsval_nested_ind (snd kv)) (fields rest)
            end) fs)
  end.
End JsvalInduction.

(** ** Shapes of call sequences of the debounced function *)

(** No call comes before the one before it. *)
Fixpoint timeOrdered {Args : Type} (previous : Z) (calls : list (Z * Args)) : bool :=
  match calls with
  | [] => true
  | (time, _) :: rest => (previous <=? time) && timeOrdered time rest
  end.


(** The invocation that a call causes when no later call supersedes it. *)
Definition invocationOf {Args : Type} (wait : Z) (call : Z * Args) : Z * Args :=
  (fst call + wait, snd call).

(** ** Further notions for the event bridge *)

(** The two event sources the bridge never attaches to. *)
Definition unusedSourcesEmpty (reg : Registry) : Prop :=
  reg TWindow Keydown = [] /\ reg TDocument Popstate = [].

(** An operation that is not an [addEventListener] on one of the unused
    sources. *)
Definition sparesUnusedSources (op : ListenerOp) : Prop :=
  match op with
  | AddEventListener TWindow Keydown _ => False
  | AddEventListener TDocument Popstate _ => False
  | _ => True
  end.

(** ** The [errorMessage] memo *)

(** A control as the memo reads it: the fields modelled so far, and its
    [label]. *)
Record LabelledControl : Type := mkLabelledControl {
  plain : Control;
  label : string
}.

(** [[...new Set(xs)]]: the values of [xs], each once, in the order of their
    first occurrence. *)
Definition uniqueValues (xs : list string) : list string :=
  fold_left
    (fun seen x => if existsb (String.eqb x) seen then seen else seen ++ [x])
    xs [].

(** [control.validationErrors?.includes(message)]. *)
Definition hasMessage (message : string) (control : LabelledControl) : bool :=
  match validationErrors (plain control) with
  | Some errors => existsb (String.eqb message) errors
  | None => false
  end.

(** One [<div>] of the message: whether the plural wording is used
    ([labels.length > 1]), the labels that are joined, and the message. *)
Record ErrorLine : Type := mkErrorLine {
  line_plural : bool;
  line_labels : list string;
  line_message : string
}.

(** What the memo yields: [null], [undefined] (the variable [errorMessage]
    left unassigned), or the element with its lines. *)
Inductive ErrorMessage : Type :=
| ErrorNull
| ErrorUndefined
| ErrorElement (lines : list ErrorLine).

Definition errorMessage (controls : gmap string LabelledControl) : ErrorMessage :=
  let controlsWithErrors :=
    List.filter (fun control => hasValidationErrors (plain control))
                (Object_values controls) in
  if (length controlsWithErrors =? 0)%nat then ErrorNull
  else
    let errorMessages :=
      List.map (fun control => default [] (validationErrors (plain control)))
               controlsWithErrors in
    let uniqueErrorMessages := uniqueValues (concat errorMessages) in
    let errors :=
      List.map
        (fun message =>
           let matchingLabels :=
             List.map label
               (List.filter (hasMessage message) controlsWithErrors) in
           mkErrorLine (1 <? length matchingLabels)%nat matchingLabels message)
        uniqueErrorMessages in
    if (0 <? length errors)%nat then ErrorElement errors else ErrorUndefined.

(** A snapshot with two controls that share one validation error. *)
Definition sampleLabelledControls : gmap string LabelledControl :=
  {[ "metrics" := mkLabelledControl
                    (mkControl (VArr []) (Some ["cannot be empty"]) false false)
                    "Metrics";
     "groupby" := mkLabelledControl
                    (mkControl (VArr []) (Some ["cannot be empty"; "too long"])
                               false false)
                    "Dimensions";
     "row_limit" := mkLabelledControl
                      (mkControl (VNum 100) None false false) "Row limit" ]}.

(** ** The component's callbacks *)

(** [props.slice], as far as the callbacks read it. *)
Record Slice : Type := mkSlice {
  slice_slice_id : jsval;
  slice_slice_name : jsval;
  slice_form_data : option (gmap string jsval)
}.

(** The props the callbacks read. *)
Record Props : Type := mkProps {
  props_controls_now : Snapshot;
  props_form_data : FormData;
  props_dashboardId : jsval;
  props_datasource_id : jsval;
  props_datasource_type : jsval;
  props_standalone : bool;
  props_force : bool;
  props_timeout : jsval;
  props_chart_id : jsval;
  props_latestQueryFormData : gmap string jsval;
  props_slice : option Slice;
  props_saveAction : jsval;
  props_ownState : jsval
}.

(** What a callback does, in order: the action creators it calls, the calls
    of the debounced [updateHistory], and the state setter. *)
Inductive Command : Type :=
| Dispatch (action : Action)
| SetForceQuery (force : bool)
| SetExploreControls (formData : FormData)
| PostChartFormData (formData : FormData) (force : bool) (timeout chartId : jsval)
| UpdateHistory (args : UpdateArgs)
| SetLastQueriedControls (controls : Snapshot)
| SaveSlice (formData : FormData) (sliceId sliceName : jsval)
| SetSaveAction (saveAction : jsval)
| UpdateQueryFormData (newQueryFormData : gmap string jsval) (chartId : jsval)
| RenderTriggered (time : Z) (chartId : jsval).

(** [addHistory({ isReplace, title })]: the arguments it passes to
    [updateHistory].  With a truthy [props.dashboardId] the query definition
    is extended with the key [dashboardId]. *)
Definition addHistory (props : Props) (tabId : jsval)
                      (isReplace : bool) (title : jsval) : UpdateArgs :=
  let formData :=
    if truthy (props_dashboardId props)
    then mkFormData (slice_id (props_form_data props))
                    (url_params (props_form_data props))
                    (<["dashboardId" := props_dashboardId props]>
                       (form_fields (props_form_data props)))
    else props_form_data props in
  mkUpdateArgs formData (props_datasource_id props) (props_datasource_type props)
               isReplace (props_standalone props) (props_force props) title tabId.

(** [onQuery]; [addHistory()] has the defaults [isReplace = false] and no
    title. *)
Definition onQuery (props : Props) (tabId : jsval) : list Command :=
  [SetForceQuery false;
   Dispatch (TriggerQuery true (props_chart_id props));
   UpdateHistory (addHistory props tabId false VUndefined);
   SetLastQueriedControls (props_controls_now props)].

(** The keys of a query definition held in a [FormData]: a [slice_id] of
    [undefined] stands for a definition without that key. *)
Definition formDataKeys (formData : FormData) : list string :=
  match slice_id formData with VUndefined => [] | _ => ["slice_id"] end
  ++ match url_params formData with Some _ => ["url_params"] | None => [] end
  ++ Object_keys (form_fields formData).

(** [window.history.state]: the state of the current entry, [null] ([None])
    when there is none. *)
Definition history_state (w : Window) : option FormData :=
  match history_entries w with
  | entry :: _ => Some (entry_state entry)
  | [] => None
  end.

(** [handlePopstate]. *)
Definition handlePopstate (props : Props) (w : Window) : list Command :=
  match history_state w with
  | Some formData =>
      if (0 <? length (formDataKeys formData))%nat then
        [SetExploreControls formData;
         PostChartFormData formData (props_force props) (props_timeout props)
                           (props_chart_id props)]
      else []
  | None => []
  end.

(** A [keydown] event, as far as [handleKeydown] reads it. *)
Record KeyEvent : Type := mkKeyEvent {
  ctrlKey : bool;
  metaKey : bool;
  key : string;
  keyCode : Z
}.

(** [handleKeydown].  The navigation that follows a successful save is
    outside the model. *)
Definition handleKeydown (props : Props) (tabId : jsval) (event : KeyEvent)
  : list Command :=
  let controlOrCommand := ctrlKey event || metaKey event in
  if controlOrCommand then
    let isEnter := String.eqb (key event) "Enter" || (keyCode event =? 13) in
    let isS := String.eqb (key event) "s" || (keyCode event =? 83) in
    if isEnter then onQuery props tabId
    else if isS then
      match props_slice props with
      | Some slice =>
          [SaveSlice (props_form_data props) (slice_slice_id slice)
                     (slice_slice_name slice)]
      | None => []
      end
    else []
  else [].

(** Modelled from the spec: [getFormDataFromControls] of
    [src/explore/controlUtils], whose body is outside the verified file; the
    query definition is "a flat key/value projection" of the snapshot: every
    control name with the control's value. *)
Definition getFormDataFromControls (controls : Snapshot) : gmap string jsval :=
  value <$> controls.

(** lodash [pick(object, paths)]: the entries of [object] under the given
    keys. *)
Definition pick {A : Type} (object : gmap string A) (paths : list string)
  : gmap string A :=
  filter (fun entry => fst entry ∈ paths) object.

(** [reRenderChart(controlsChanged)], called at instant [now]
    ([new Date().getTime()]); [None] is the call without argument. *)
Definition reRenderChart (props : Props) (tabId : jsval) (now : Z)
                         (controlsChanged : option (list string)) : list Command :=
  let newQueryFormData :=
    match controlsChanged with
    | Some changed =>
        getFormDataFromControls (pick (props_controls_now props) changed)
          ∪ props_latestQueryFormData props
    | None => getFormDataFromControls (props_controls_now props)
    end in
  [UpdateQueryFormData newQueryFormData (props_chart_id props);
   RenderTriggered now (props_chart_id props);
   UpdateHistory (addHistory props tabId false VUndefined)].

(** The callback of [useChangeEffect(props.saveAction, ...)]. *)
Definition saveActionEffect (props : Props) (tabId : jsval) : list Command :=
  if existsb (isEqual (props_saveAction props)) [VStr "saveas"; VStr "overwrite"]
  then onQuery props tabId
       ++ [UpdateHistory (addHistory props tabId true VUndefined)]
       ++ [SetSaveAction VNull]
  else [].

(** The effect on [props.ownState]. *)
Definition ownStateEffect (props : Props) (tabId : jsval) (now : Z) : list Command :=
  match props_ownState props with
  | VUndefined => []
  | _ => onQuery props tabId ++ reRenderChart props tabId now None
  end.

(** The calls of [updateHistory] among the commands, in order. *)
Definition historyCalls (commands : list Command) : list UpdateArgs :=
  omap (fun command =>
          match command with
          | UpdateHistory args => Some args
          | _ => None
          end) commands.

(** The calls, all made at the instant [now] (one turn of the event loop). *)
Definition callsAt (now : Z) (commands : list Command) : list (Z * UpdateArgs) :=
  List.map (fun args => (now, args)) (historyCalls commands).

(** Props of a saved chart on a dashboard. *)
Definition sampleProps (saveAction : jsval) : Props :=
  mkProps (granularityIs "day" ∪ colorSchemeIs "set2" None)
          sampleFormData (VNum 5) (VNum 3) (VStr "table") false false
          (VNum 60) (VNum 42)
          {[ "granularity" := VStr "day"; "color_scheme" := VStr "set1" ]}
          (Some (mkSlice (VNum 42) (VStr "Sales") None))
          saveAction VUndefined.

(** ** Parts of [mapStateToProps] *)

(** [object.key] on an object held as a map: [undefined] when the key is
    not there. *)
Definition getProp (object : gmap string jsval) (name : string) : jsval :=
  default VUndefined (object !! name).

(** [retainQueryModeRequirements(hiddenFormData)]; the set
    [QUERY_MODE_REQUISITES] of [src/explore/constants] is a parameter. *)
Definition retainQueryModeRequirements (QUERY_MODE_REQUISITES : gset string)
                                       (hiddenFormData : option (gmap string jsval))
  : list string :=
  List.filter (fun key => negb (bool_decide (key ∈ QUERY_MODE_REQUISITES)))
              (Object_keys (default ∅ hiddenFormData)).

(** lodash [omit(object, paths)]: [object] without the given keys. *)
Definition omit {A : Type} (object : gmap string A) (paths : list string)
  : gmap string A :=
  filter (fun entry => fst entry ∉ paths) object.

(** [!!controls.query_mode?.value]. *)
Definition hasQueryMode (controls : Snapshot) : bool :=
  match controls !! "query_mode" with
  | Some control => truthy (value control)
  | None => false
  end.

(** The constants [fieldsToOmit] and [controlsBasedFormData]. *)
Definition fieldsToOmit (QUERY_MODE_REQUISITES : gset string) (controls : Snapshot)
                        (hiddenFormData : option (gmap string jsval)) : list string :=
  if hasQueryMode controls
  then retainQueryModeRequirements QUERY_MODE_REQUISITES hiddenFormData
  else Object_keys (default ∅ hiddenFormData).

Definition controlsBasedFormData (QUERY_MODE_REQUISITES : gset string)
                                 (controls : Snapshot)
                                 (hiddenFormData : option (gmap string jsval))
  : gmap string jsval :=
  omit (getFormDataFromControls controls)
       (fieldsToOmit QUERY_MODE_REQUISITES controls hiddenFormData).

(** [slice?.form_data?.subheader]. *)
Definition sliceSubheader (slice : option Slice) : jsval :=
  match slice with
  | Some s =>
      match slice_form_data s with
      | Some form_data => getProp form_data "subheader"
      | None => VUndefined
      end
  | None => VUndefined
  end.

(** [value === 'literal']. *)
Definition isString (literal : string) (v : jsval) : bool :=
  match v with
  | VStr s => String.eqb s literal
  | _ => false
  end.

(** [patchBigNumberTotalFormData(form_data, slice)]. *)
Definition patchBigNumberTotalFormData (form_data : gmap string jsval)
                                       (slice : option Slice) : gmap string jsval :=
  if isString "big_number_total" (getProp form_data "viz_type")
     && negb (truthy (getProp form_data "subtitle"))
     && truthy (sliceSubheader slice)
  then <["subtitle" := sliceSubheader slice]> form_data
  else form_data.

(** A table chart in aggregate mode whose raw-mode controls are hidden; the
    requisites of the query mode are [all_columns] and [groupby]. *)
Definition sampleModeControls : Snapshot :=
  {[ "query_mode" := mkControl (VStr "aggregate") None false false;
     "all_columns" := mkControl (VArr [VStr "name"]) None false false;
     "percent_metrics" := mkControl (VArr []) None false false;
     "row_limit" := mkControl (VNum 100) None false false ]}.

Definition sampleHidden : option (gmap string jsval) :=
  Some {[ "all_columns" := VArr [VStr "name"]; "percent_metrics" := VArr [] ]}.

Definition sampleRequisites : gset string := {[ "all_columns"; "groupby" ]}.

(** A big-number chart saved with the legacy key [subheader]. *)
Definition sampleBigNumber : gmap string jsval :=
  {[ "viz_type" := VStr "big_number_total"; "metric" := VStr "count" ]}.

Definition sampleLegacySlice : option Slice :=
  Some (mkSlice (VNum 9) (VStr "Total")
                (Some {[ "subheader" := VStr "all time" ]})).

(** ** [CollectionControl]: the list-editing callbacks

    [props.value] is an array of objects.  A slot of a JavaScript array is
    an element or a hole (an index below [length] that was never written);
    an element is an object or [undefined]. *)

Inductive Slot : Type :=
| Hole
| Undef
| Item (fields : gmap string jsval).

(** Reading a slot, as the spread [[...array]] and [array[i]] do: a hole
    reads as [undefined]. *)
Definition readSlot (slot : Slot) : Slot :=
  match slot with
  | Hole => Undef
  | _ => slot
  end.

(** The fields that [{...array[i]}] copies: those of an object, none of
    [undefined] or of an index out of range. *)
Definition spreadSlot (slot : option Slot) : gmap string jsval :=
  match slot with
  | Some (Item fields) => fields
  | _ => ∅
  end.

Definition isHole (slot : Slot) : bool :=
  match slot with
  | Hole => true
  | _ => false
  end.

(** No slot of the array is a hole. *)
Definition dense (value : list Slot) : Prop := Forall (fun slot => slot <> Hole) value.

(** [onChange(i, value)]: the new array given to [props.onChange].  An
    assignment at an index beyond the end extends the array, the slots in
    between being holes. *)
Definition collectionOnChange (value : list Slot) (i : nat)
                              (change : gmap string jsval) : list Slot :=
  let newValue := List.map readSlot value in
  let item := Item (change ∪ spreadSlot (value !! i)) in
  if (i <? length newValue)%nat
  then <[i := item]> newValue
  else newValue ++ replicate (i - length newValue) Hole ++ [item].

(** [onAdd()], [item] being what [props.itemGenerator()] returns. *)
Definition collectionOnAdd (value : list Slot) (item : gmap string jsval) : list Slot :=
  value ++ [Item item].

(** [value.filter((o, ix) => i !== ix)], the callback being called for the
    slots from index [ix] on; [filter] skips holes. *)
Fixpoint removeItemFrom (ix i : nat) (value : list Slot) : list Slot :=
  match value with
  | [] => []
  | slot :: rest =>
      (if isHole slot then []
       else if negb (Nat.eqb i ix) then [slot] else [])
      ++ removeItemFrom (S ix) i rest
  end.

(** [removeItem(i)]. *)
Definition collectionRemoveItem (value : list Slot) (i : nat) : list Slot :=
  removeItemFrom 0 i value.

(** [arrayMove(array, from, to)] of react-sortable-hoc, for indices that
    are not negative: [array.slice()], then
    [array.splice(to, 0, array.splice(from, 1)[0])]. *)
Definition arrayMove (array : list Slot) (from to : nat) : list Slot :=
  let moved :=
    match array !! from with
    | Some slot => readSlot slot
    | None => Undef
    end in
  let rest := delete from array in
  take to rest ++ moved :: drop to rest.

(** [onSortEnd({ oldIndex, newIndex })]. *)
Definition collectionOnSortEnd (value : list Slot) (oldIndex newIndex : nat)
  : list Slot :=
  arrayMove value oldIndex newIndex.

(** A collection of three items. *)
Definition sampleCollection : list Slot :=
  [Item {[ "key" := VStr "a"; "name" := VStr "first" ]};
   Item {[ "key" := VStr "b"; "name" := VStr "second" ]};
   Item {[ "key" := VStr "c"; "name" := VStr "third" ]}].

(** No cause of the run delivers new controls. *)
Definition noControlChange (causes : list RenderCause) : bool :=
  forallb (fun cause => match cause with
                        | ControlsChanged _ => false
                        | _ => true
                        end) causes.

(** ** Properties of the staleness detector and of the change classifier *)

Lemma Object_keys_In {A : Type} (o : gmap string A) (key : string) :
  In key (Object_keys o) <-> is_Some (o !! key).
Proof.
  unfold Object_keys. rewrite in_map_iff. split.
  - intros [[k v] [Hk Hin]]. simpl in Hk. subst k.
    apply list_elem_of_In, elem_of_map_to_list in Hin. eauto.
  - intros [v Hv]. exists (key, v). split; [reflexivity|].
    apply list_elem_of_In, elem_of_map_to_list. exact Hv.
Qed.

(** The [isObjectLike] test of [chartIsStale] only selects between two
    spellings of one comparison: on a pair that is not made of two
    object-like values nothing can be omitted at the top, and the two
    comparisons agree. *)
Lemma staleValueChanged_areObjectsEqual (value1 value2 : jsval) :
  staleValueChanged value1 value2
  = negb (areObjectsEqual ["datasourceWarning"] value1 value2).
Proof.
  unfold staleValueChanged, areObjectsEqual.
  destruct value1, value2; reflexivity.
Qed.

(** C1 (staleness detection).  [chartIsStale] answers [true] exactly when
    some control name that is present in the last-queried snapshot and in the
    current one has a current value that differs from the last-queried value
    under deep equality with the field [datasourceWarning] ignored, and that
    control, as the current snapshot has it, is neither a [renderTrigger] nor
    a [dontRefreshOnChange] control.  In particular it answers [false] when
    no control's value differs, and when there is no last-queried snapshot. *)
Theorem chartIsStale_iff_nonignorable_change (lastQueried controls : Snapshot) :
  (chartIsStale (Some lastQueried) controls = true <->
   exists (name : string) (lastControl control : Control),
     lastQueried !! name = Some lastControl /\
     controls !! name = Some control /\
     areObjectsEqual ["datasourceWarning"] (value control) (value lastControl) = false /\
     renderTrigger control = false /\
     dontRefreshOnChange control = false)
  /\
  ((forall (name : string) (lastControl control : Control),
       lastQueried !! name = Some lastControl ->
       controls !! name = Some control ->
       areObjectsEqual ["datasourceWarning"] (value control) (value lastControl) = true) ->
   chartIsStale (Some lastQueried) controls = false)
  /\
  chartIsStale None controls = false.
Proof.
  assert (Hiff : chartIsStale (Some lastQueried) controls = true <->
   exists (name : string) (lastControl control : Control),
     lastQueried !! name = Some lastControl /\
     controls !! name = Some control /\
     areObjectsEqual ["datasourceWarning"] (value control) (value lastControl) = false /\
     renderTrigger control = false /\
     dontRefreshOnChange control = false).
  { unfold chartIsStale. rewrite existsb_exists. split.
    - intros [key [Hin Hlive]].
      apply filter_In in Hin as [_ Hchanged].
      destruct (lastQueried !! key) as [lastControl|] eqn:Hlast; [|discriminate].
      destruct (controls !! key) as [control|] eqn:Hcur; [|discriminate].
      rewrite staleValueChanged_areObjectsEqual in Hchanged.
      apply negb_true_iff in Hchanged.
      apply andb_true_iff in Hlive as [Hr Hd].
      apply negb_true_iff in Hr, Hd.
      exists key, lastControl, control. auto.
    - intros (key & lastControl & control & Hlast & Hcur & Hne & Hr & Hd).
      exists key. split.
      + apply filter_In. split.
        * apply Object_keys_In. eauto.
        * rewrite Hlast, Hcur, staleValueChanged_areObjectsEqual, Hne. reflexivity.
      + rewrite Hcur, Hr, Hd. reflexivity. }
  split; [exact Hiff|]. split; [|reflexivity].
  intros Hsame. apply not_true_is_false. intros Hstale.
  apply Hiff in Hstale as (key & lastControl & control & Hlast & Hcur & Hne & _).
  rewrite (Hsame key lastControl control Hlast Hcur) in Hne. discriminate.
Qed.

(** C2 (change classification).  A control name is among the changed keys
    exactly when it is present in both snapshots and its value differs under
    deep equality; a name that the previous snapshot does not have is never
    among them; and a changed name is among the display (visual-only) keys
    exactly when its control in the current snapshot has [renderTrigger]. *)
Theorem changedControlKeys_classification (previousControls controls : Snapshot)
                                          (name : string) :
  (In name (changedControlKeys previousControls controls) <->
   exists previous control : Control,
     previousControls !! name = Some previous /\
     controls !! name = Some control /\
     isEqual (value control) (value previous) = false)
  /\
  (previousControls !! name = None ->
   ~ In name (changedControlKeys previousControls controls))
  /\
  (In name (displayControlsChanged previousControls controls) <->
   In name (changedControlKeys previousControls controls) /\
   exists control : Control,
     controls !! name = Some control /\ renderTrigger control = true).
Proof.
  assert (Hiff : In name (changedControlKeys previousControls controls) <->
   exists previous control : Control,
     previousControls !! name = Some previous /\
     controls !! name = Some control /\
     isEqual (value control) (value previous) = false).
  { unfold changedControlKeys. rewrite filter_In, Object_keys_In. split.
    - intros [_ Hchanged].
      destruct (previousControls !! name) as [previous|]; [|discriminate].
      destruct (controls !! name) as [control|]; [|discriminate].
      apply negb_true_iff in Hchanged. simpl in Hchanged. eauto.
    - intros (previous & control & Hprev & Hcur & Hne).
      rewrite Hprev, Hcur. split; [eauto|].
      simpl. rewrite Hne. reflexivity. }
  split; [exact Hiff|]. split.
  - intros Hnone Hin. apply Hiff in Hin as (previous & _ & Hprev & _).
    congruence.
  - unfold displayControlsChanged. rewrite filter_In. split.
    + intros [Hin Hrt]. split; [exact Hin|].
      destruct (controls !! name) as [control|]; [eauto|discriminate].
    + intros [Hin (control & Hcur & Hrt)]. split; [exact Hin|].
      rewrite Hcur. exact Hrt.
Qed.

(** ** Properties of the debounced history synchroniser *)

Lemma last_cons_default {A : Type} (l : list A) :
  forall x d : A, List.last (x :: l) d = List.last l x.
Proof.
  induction l as [|y l' IH]; intros x d; [reflexivity|].
  change (List.last (x :: y :: l') d) with (List.last (y :: l') d).
  rewrite (IH y d), (IH y x). reflexivity.
Qed.

Section DebounceFacts.
Context {Args : Type}.
Variable wait : Z.
Hypothesis wait_positive : 0 < wait.

Lemma debouncedCall_pending (d : Debounced Args) (time : Z) (args : Args) :
  match timerId d with Some due => time < due <= time + wait | None => True end ->
  pendingSince wait (debouncedCall wait d time args) time args.
Proof using wait_positive.
  intros Hdue. unfold pendingSince, debouncedCall. simpl.
  split; [reflexivity|]. split; [reflexivity|].
  destruct (timerId d) as [due|]; eauto.
  exists (time + wait). split; [reflexivity|lia].
Qed.

(** Within the window no timer invokes: a timer that expires finds the
    last call too recent and is restarted for the remaining time. *)
Lemma fireTimers_within_window (d : Debounced Args) (time time' : Z) (args : Args) :
  pendingSince wait d time args ->
  time <= time' -> time' - time < wait ->
  exists d',
    fireTimers wait 2 (Some time') d = (d', []) /\
    lastArgs d' = Some args /\
    lastCallTime d' = Some time /\
    exists due, timerId d' = Some due /\ time' < due <= time + wait.
Proof using wait_positive.
  intros (Hargs & Hlast & due & Htimer & Hdue) Hle Hlt.
  destruct d as [la lc ti]. simpl in *. subst la lc ti.
  unfold fireTimers. simpl.
  destruct (Z.leb_spec due time') as [Hfire|Hwait].
  - unfold timerExpired, shouldInvoke. simpl.
    replace (wait <=? due - time) with false by (symmetry; apply Z.leb_gt; lia).
    replace (due - time <? 0) with false by (symmetry; apply Z.ltb_ge; lia).
    simpl.
    replace (due + (wait - (due - time)) <=? time') with false
      by (symmetry; apply Z.leb_gt; lia).
    eexists. split; [reflexivity|]. simpl.
    split; [reflexivity|]. split; [reflexivity|].
    eexists. split; [reflexivity|]. lia.
  - eexists. split; [reflexivity|]. simpl.
    split; [reflexivity|]. split; [reflexivity|].
    exists due. split; [reflexivity|]. lia.
Qed.

(** A burst of calls, each within the window of the one before, invokes
    nothing and leaves the last call pending. *)
Lemma debouncedCalls_burst (calls : list (Z * Args)) :
  forall (d : Debounced Args) (time : Z) (args : Args),
    pendingSince wait d time args ->
    withinWindow wait time calls = true ->
    exists d',
      debouncedCalls wait d calls = (d', []) /\
      pendingSince wait d' (fst (List.last calls (time, args)))
                      (snd (List.last calls (time, args))).
Proof using wait_positive.
  induction calls as [|[time' args'] rest IH]; intros d time args Hpend Hwin.
  - exists d. split; [reflexivity|exact Hpend].
  - simpl in Hwin.
    apply andb_true_iff in Hwin as [Hwin Hrest].
    apply andb_true_iff in Hwin as [Hle Hlt].
    apply Z.leb_le in Hle. apply Z.ltb_lt in Hlt.
    destruct (fireTimers_within_window d time time' args Hpend Hle Hlt)
      as (d1 & Hfire & _ & _ & due & Htimer & Hdue).
    assert (Hp : pendingSince wait (debouncedCall wait d1 time' args') time' args').
    { apply debouncedCall_pending. rewrite Htimer. lia. }
    destruct (IH _ _ _ Hp Hrest) as (d2 & Hcalls & Hpend2).
    exists d2. split.
    + cbn [debouncedCalls]. rewrite Hfire, Hcalls. reflexivity.
    + rewrite last_cons_default. exact Hpend2.
Qed.

(** Once no further call comes, the pending call is invoked, once, at the
    end of its window. *)
Lemma fireTimers_trailing (d : Debounced Args) (time : Z) (args : Args) :
  pendingSince wait d time args ->
  fireTimers wait 2 None d
  = (mkDebounced None (Some time) None, [(time + wait, args)]).
Proof using wait_positive.
  intros (Hargs & Hlast & due & Htimer & Hdue).
  destruct d as [la lc ti]. simpl in *. subst la lc ti.
  unfold fireTimers, timerExpired, shouldInvoke. simpl.
  destruct (Z.leb_spec wait (due - time)) as [Hnow|Hlater].
  - simpl. replace due with (time + wait) by lia. reflexivity.
  - replace (due - time <? 0) with false by (symmetry; apply Z.ltb_ge; lia).
    simpl.
    replace (due + (wait - (due - time))) with (time + wait) by lia.
    replace (wait <=? time + wait - time) with true
      by (symmetry; apply Z.leb_le; lia).
    reflexivity.
Qed.

Lemma debounceSession_burst (first : Z * Args) (rest : list (Z * Args)) :
  withinWindow wait (fst first) rest = true ->
  debounceSession wait (first :: rest)
  = (mkDebounced None (Some (fst (List.last rest first))) None,
     [(fst (List.last rest first) + wait, snd (List.last rest first))]).
Proof using wait_positive.
  intros Hwin. destruct first as [time args].
  unfold debounceSession. cbn [debouncedCalls].
  assert (Hidle : fireTimers wait 2 (Some time) (@debouncedInit Args)
                  = (debouncedInit, [])) by reflexivity.
  assert (Hp : pendingSince wait (debouncedCall wait debouncedInit time args) time args).
  { apply debouncedCall_pending. exact I. }
  destruct (debouncedCalls_burst rest _ _ _ Hp Hwin) as (d' & Hcalls & Hpend).
  rewrite Hidle, Hcalls, (fireTimers_trailing _ _ _ Hpend). reflexivity.
Qed.
End DebounceFacts.

(** Two rounds are enough in every state: after [fireTimers 2] no timer is
    left that is due by [until]. *)
Lemma fireTimers_settled {Args : Type} (wait : Z) (until : option Z)
                         (d : Debounced Args) :
  match timerId (fst (fireTimers wait 2 until d)), until with
  | Some due, Some t => t < due
  | Some _, None => False
  | None, _ => True
  end.
Proof.
  destruct d as [la lc ti]. unfold fireTimers. simpl.
  destruct ti as [due|]; [|destruct until; exact I].
  destruct (match until with Some t => due <=? t | None => true end) eqn:Hdue.
  - unfold timerExpired, shouldInvoke. simpl.
    destruct lc as [last|]; simpl.
    + destruct (Z.leb_spec wait (due - last)) as [H1|H1]; simpl.
      * destruct la; simpl; destruct until; exact I.
      * destruct (Z.ltb_spec (due - last) 0) as [H2|H2]; simpl.
        -- destruct la; simpl; destruct until; exact I.
        -- destruct (match until with
                     | Some t => due + (wait - (due - last)) <=? t
                     | None => true end) eqn:Hdue2.
           ++ replace (wait <=? due + (wait - (due - last)) - last) with true
                by (symmetry; apply Z.leb_le; lia).
              simpl. destruct la; simpl; destruct until; exact I.
           ++ simpl. destruct until as [t|]; [|discriminate].
              apply Z.leb_gt in Hdue2. lia.
    + destruct la; simpl; destruct until; exact I.
  - simpl. destruct until as [t|]; [|discriminate].
    apply Z.leb_gt in Hdue. lia.
Qed.

(** C3 (debounce coalescing).  A sequence of calls of [updateHistory] in
    which every call comes less than 1000 ms after the one before causes
    exactly one run of the persist routine, with the arguments of the last
    call of the sequence (1000 ms after that call), and leaves no timer
    pending. *)
Theorem updateHistory_burst_persists_once_with_last_args
    (first : Z * UpdateArgs) (rest : list (Z * UpdateArgs)) :
  withinWindow 1000 (fst first) rest = true ->
  snd (updateHistory (first :: rest))
  = [(fst (List.last rest first) + 1000, snd (List.last rest first))]
  /\ timerId (fst (updateHistory (first :: rest))) = None.
Proof.
  intros Hwin. unfold updateHistory.
  rewrite (debounceSession_burst 1000 ltac:(lia) first rest Hwin).
  split; reflexivity.
Qed.

(** ** Properties of the event bridge *)

Ltac split_bridge_goal :=
  repeat match goal with
         | |- _ /\ _ => split
         | |- Forall _ (_ :: _) => apply Forall_cons
         | |- Forall _ [] => apply Forall_nil
         | |- exists _, _ => eexists
         end.

Lemma bridgePass_invariant (st : BridgeState) (last : option (Handler * Handler))
                           (handlers : Handler * Handler) :
  bridgeBetweenPasses st last ->
  bridgeBetweenPasses (fst (bridgePass st handlers)) (Some handlers) /\
  Forall atMostOneListener (snd (bridgePass st handlers)).
Proof.
  destruct handlers as [hp hk].
  destruct st as [[pprev pdeps] [kprev kdeps] reg].
  unfold bridgeBetweenPasses. cbn [registry popstateHooks keydownHooks].
  intros [Hwk Hlast].
  destruct last as [[hp0 hk0]|].
  - destruct Hlast as ([p Hp] & [k Hk] & Hwp & Hdk).
    injection Hp as -> ->. injection Hk as -> ->.
    unfold bridgePass, bridgeOps, listenerCleanup, listenerEffect,
      listenerEffectRuns, listenerHooksAfter, previousHandler, usePrevious,
      depsChanged, lastRegistry, atMostOneListener.
    cbn [previousHandlerRef listenerEffectDeps popstateHooks keydownHooks registry
         fst snd].
    destruct (bool_decide_reflect ((hp0, p) = (hp, Some hp0))) as [Ep|Ep];
      destruct (bool_decide_reflect ((hk0, k) = (hk, Some hk0))) as [Ek|Ek];
      try (injection Ep as -> ->); try (injection Ek as -> ->);
      repeat progress (cbn; rewrite ?Hwp, ?Hdk, ?Hwk, ?Nat.eqb_refl);
      split_bridge_goal;
      repeat progress (cbn; rewrite ?Hwp, ?Hdk, ?Hwk, ?Nat.eqb_refl);
      first [reflexivity | lia].
  - destruct Hlast as (Hp & Hk & Hwp & Hdk).
    injection Hp as -> ->. injection Hk as -> ->.
    unfold bridgePass, bridgeOps, listenerCleanup, listenerEffect,
      listenerEffectRuns, listenerHooksAfter, previousHandler, usePrevious,
      depsChanged, lastRegistry, atMostOneListener.
    repeat progress (cbn; rewrite ?Hwp, ?Hdk, ?Hwk);
      split_bridge_goal;
      repeat progress (cbn; rewrite ?Hwp, ?Hdk, ?Hwk);
      first [reflexivity | lia].
Qed.

Lemma bridgePasses_invariant (renders : list (Handler * Handler)) :
  forall (st : BridgeState) (last : option (Handler * Handler)),
    bridgeBetweenPasses st last ->
    Forall (fun pass =>
              listeningExactly (snd pass) (fst (fst pass)) /\
              Forall atMostOneListener (snd (fst pass)))
           (bridgePasses st renders)
    /\ bridgeBetweenPasses (bridgeStateAfter st renders)
                           (List.last (List.map Some renders) last).
Proof.
  induction renders as [|handlers rest IH]; intros st last Hinv.
  - split; [constructor|exact Hinv].
  - destruct (bridgePass_invariant st last handlers Hinv) as [Hnext Hvisited].
    cbn [bridgePasses bridgeStateAfter].
    destruct (bridgePass st handlers) as [st' visited] eqn:Hpass.
    cbn [fst snd] in *.
    destruct (IH st' (Some handlers) Hnext) as [Hall Hafter].
    split.
    + constructor; [|exact Hall]. cbn [fst snd]. split; [|exact Hvisited].
      destruct handlers as [hp hk]. destruct Hnext as (_ & _ & _ & Hwp & Hdk).
      split; assumption.
    + cbn [List.map]. rewrite last_cons_default. exact Hafter.
Qed.

(** C4 (event bridge).  From the first render pass on, every pass leaves
    exactly one listener on each of the two event sources ([popstate] on
    [window], [keydown] on [document]), and it is the handler closure of
    that pass; at no point while the effects of a pass are carried out are
    two listeners attached to one source, because the listener attached
    before is removed before the new one is added; and teardown leaves
    none. *)
Theorem bridge_keeps_exactly_one_listener (renders : list (Handler * Handler)) :
  Forall (fun pass =>
            listeningExactly (snd pass) (fst (fst pass)) /\
            Forall atMostOneListener (snd (fst pass)))
         (bridgePasses bridgeInit renders)
  /\ bridgeUnmount (bridgeStateAfter bridgeInit renders) TWindow Popstate = []
  /\ bridgeUnmount (bridgeStateAfter bridgeInit renders) TDocument Keydown = [].
Proof.
  assert (Hinit : bridgeBetweenPasses bridgeInit None).
  { repeat split. }
  destruct (bridgePasses_invariant renders bridgeInit None Hinit) as [Hall Hend].
  split; [exact Hall|].
  destruct (bridgeStateAfter bridgeInit renders) as [[pprev pdeps] [kprev kdeps] reg].
  unfold bridgeBetweenPasses in Hend. cbn [registry popstateHooks keydownHooks] in Hend.
  destruct Hend as [Hwk Hlast].
  destruct (List.last (List.map Some renders) None) as [[hp hk]|].
  - destruct Hlast as ([p Hp] & [k Hk] & Hwp & Hdk).
    injection Hp as -> ->. injection Hk as -> ->.
    unfold bridgeUnmount, lastRegistry.
    repeat progress (cbn; rewrite ?Hwp, ?Hdk, ?Hwk, ?Nat.eqb_refl).
    split; reflexivity.
  - destruct Hlast as (Hp & Hk & Hwp & Hdk).
    injection Hp as -> ->. injection Hk as -> ->.
    unfold bridgeUnmount, lastRegistry. cbn. split; assumption.
Qed.

(** ** Properties of the plugin-load effect *)

Lemma pluginLoadPasses_app (before rest : list (option bool)) :
  forall hooks : PluginHooks,
    pluginLoadPasses hooks (before ++ rest)
    = pluginLoadPasses hooks before
      ++ pluginLoadPasses (pluginHooksAfter hooks before) rest.
Proof.
  induction before as [|loading before' IH]; intros hooks; [reflexivity|].
  cbn [app pluginLoadPasses pluginHooksAfter fold_left].
  destruct (pluginLoadPass hooks loading) as [hooks' actions] eqn:Hpass.
  cbn [fst]. rewrite IH. reflexivity.
Qed.

Lemma pluginLoadPasses_length (observed : list (option bool)) :
  forall hooks : PluginHooks,
    length (pluginLoadPasses hooks observed) = length observed.
Proof.
  induction observed as [|loading rest IH]; intros hooks; [reflexivity|].
  cbn [pluginLoadPasses].
  destruct (pluginLoadPass hooks loading) as [hooks' actions].
  cbn [length]. rewrite IH. reflexivity.
Qed.

(** After a pass the ref of [usePrevious] and the remembered dependency
    both hold the value observed on that pass. *)
Lemma pluginHooksAfter_snoc (before : list (option bool)) (previous : option bool)
                            (hooks : PluginHooks) :
  pluginHooksAfter hooks (before ++ [previous])
  = mkPluginHooks (Some previous) (Some previous).
Proof.
  unfold pluginHooksAfter. rewrite fold_left_app. reflexivity.
Qed.

(** [isDynamicPluginLoading] is falsy exactly when the plugin is not in the
    registry, or its [mounting] is absent or false. *)
Lemma isDynamicPluginLoading_falsy (dynamicPlugins : gmap string DynamicPlugin)
                                   (vizType : string) :
  isTrue (isDynamicPluginLoading dynamicPlugins vizType) = false <->
  dynamicPlugins !! vizType = None \/
  exists dynamicPlugin : DynamicPlugin,
    dynamicPlugins !! vizType = Some dynamicPlugin /\
    (mounting dynamicPlugin = None \/ mounting dynamicPlugin = Some false).
Proof.
  unfold isDynamicPluginLoading.
  destruct (dynamicPlugins !! vizType) as [[[[|]|]]|]; cbn; split.
  - discriminate.
  - intros [Hnone|(p & Hp & [Hm|Hm])]; [discriminate| |];
      injection Hp as <-; discriminate.
  - intros _. right. eexists. split; [reflexivity|]. right. reflexivity.
  - reflexivity.
  - intros _. right. eexists. split; [reflexivity|]. left. reflexivity.
  - reflexivity.
  - intros _. left. reflexivity.
  - reflexivity.
Qed.

(** C8 (plugin load edge detection).  On every render pass after the first,
    [dynamicPluginControlsReady] is invoked (once) exactly when
    [isDynamicPluginLoading] was true on the previous pass and is false or
    absent on this one; on every other transition, the start of loading
    included, nothing is invoked; and nothing is invoked on the first
    pass. *)
Theorem pluginLoad_ready_exactly_on_finished_edge
    (before : list (option bool)) (previous current : option bool)
    (after : list (option bool)) :
  pluginLoadPasses pluginHooksInit (before ++ previous :: current :: after)
    !! S (length before)
  = Some (if finishedLoadingEdge previous current
          then [DynamicPluginControlsReady] else [])
  /\
  pluginLoadPasses pluginHooksInit (current :: after) !! 0%nat = Some [].
Proof.
  split.
  - replace (before ++ previous :: current :: after)
      with ((before ++ [previous]) ++ current :: after)
      by (rewrite <- app_assoc; reflexivity).
    rewrite pluginLoadPasses_app, pluginHooksAfter_snoc.
    rewrite lookup_app_r;
      rewrite pluginLoadPasses_length, length_app; cbn [length]; [|lia].
    replace (S (length before) - (length before + 1))%nat with 0%nat by lia.
    destruct previous as [[|]|], current as [[|]|]; reflexivity.
  - destruct current as [[|]|]; reflexivity.
Qed.

(** ** Properties of the render-body telemetry and of the mount effect *)

Lemma transitionsIntoStale_le_countStale (flags : list bool) :
  forall wasStale : bool,
    (transitionsIntoStale wasStale flags <= countStale flags)%nat.
Proof.
  unfold countStale.
  induction flags as [|flag rest IH]; intros wasStale; [reflexivity|].
  cbn [transitionsIntoStale List.filter]. specialize (IH flag).
  destruct wasStale, flag; cbn [negb andb length]; lia.
Qed.

Lemma renderPassesFrom_telemetry (causes : list RenderCause) :
  forall st : StaleState,
    Forall emitsIffStale
           (renderPassesFrom st causes).
Proof.
  induction causes as [|cause rest IH]; intros st; [constructor|].
  cbn [renderPassesFrom]. constructor; [|apply IH].
  unfold emitsIffStale, renderPass, renderLogEvents. cbn [fst snd]. reflexivity.
Qed.

Lemma telemetry_count (passes : list (bool * list Action)) :
  Forall emitsIffStale passes ->
  length (concat (List.map snd passes)) = countStale (List.map fst passes).
Proof.
  unfold countStale.
  induction 1 as [|[flag actions] rest Hpass _ IH]; [reflexivity|].
  unfold emitsIffStale in Hpass.
  cbn [List.map concat fst snd List.filter] in *. rewrite length_app, IH.
  subst actions. destruct flag; reflexivity.
Qed.

(** C5 as stated fails.  A table chart (its snapshots have the [viz_type]
    control that the controls-changed effect reads, so that effect runs to
    its end and re-renders nothing) is made stale by one change of
    [granularity], one transition from not stale to stale; the component
    then renders once more for an unrelated reason, and the telemetry event
    is emitted on both stale passes. *)
Lemma telemetry_repeated_while_stale :
  controlsVizType (tableChartWithGrain "day") = Some (VStr "table")
  /\ controlsVizType (tableChartWithGrain "week") = Some (VStr "table")
  /\ controlsChangedEffect (Some (tableChartWithGrain "day")) true
                           (tableChartWithGrain "week") = []
  /\ List.map fst (renderPasses (tableChartWithGrain "day")
                     [ControlsChanged (tableChartWithGrain "week"); OtherChange])
     = [false; true; true]
  /\ transitionsIntoStale false [false; true; true] = 1%nat
  /\ concat (List.map snd (renderPasses (tableChartWithGrain "day")
                  [ControlsChanged (tableChartWithGrain "week"); OtherChange]))
     = [LogEvent LOG_ACTIONS_CHANGE_EXPLORE_CONTROLS;
        LogEvent LOG_ACTIONS_CHANGE_EXPLORE_CONTROLS].
Proof. vm_compute. repeat split. Qed.

(** C5, amended.  The telemetry event is emitted by every render pass on
    which [chartIsStale] is true and by no other pass: over a run of passes
    the number of events is the number of stale passes, which is at least
    the number of transitions into the stale state. *)
Theorem telemetry_emitted_on_every_stale_pass (controls : Snapshot)
                                              (causes : list RenderCause) :
  Forall emitsIffStale
         (renderPasses controls causes)
  /\ length (concat (List.map snd (renderPasses controls causes)))
     = countStale (List.map fst (renderPasses controls causes))
  /\ (transitionsIntoStale false (List.map fst (renderPasses controls causes))
      <= length (concat (List.map snd (renderPasses controls causes))))%nat.
Proof.
  assert (Hall : Forall emitsIffStale
         (renderPasses controls causes)).
  { unfold renderPasses. constructor; [|apply renderPassesFrom_telemetry].
    unfold emitsIffStale, renderPass, renderLogEvents. cbn [fst snd]. reflexivity. }
  split; [exact Hall|]. split.
  - apply telemetry_count, Hall.
  - rewrite (telemetry_count _ Hall). apply transitionsIntoStale_le_countStale.
Qed.

Lemma Object_values_In {A : Type} (o : gmap string A) (x : A) :
  In x (Object_values o) <-> exists key : string, o !! key = Some x.
Proof.
  unfold Object_values. rewrite in_map_iff. split.
  - intros [[k v] [Hv Hin]]. simpl in Hv. subst v.
    apply list_elem_of_In, elem_of_map_to_list in Hin. eauto.
  - intros [key Hkey]. exists (key, x). split; [reflexivity|].
    apply list_elem_of_In, elem_of_map_to_list. exact Hkey.
Qed.

(** C9 as stated fails: the only control with a validation error is a
    [renderTrigger] control, so no query-affecting control has one, and yet
    the automatic query is not issued. *)
Lemma mount_query_suppressed_by_visual_control_error :
  (forall (name : string) (control : Control),
      colorSchemeIs "set1" (Some ["invalid"]) !! name = Some control ->
      queryAffecting control = true ->
      hasValidationErrors control = false)
  /\ mountQueryEffect (colorSchemeIs "set1" (Some ["invalid"])) (VNum 7) = [].
Proof.
  split; [|vm_compute; reflexivity].
  intros name control Hlookup. unfold colorSchemeIs in Hlookup.
  apply lookup_singleton_Some in Hlookup as [_ <-]. discriminate.
Qed.

(** C9, amended.  The automatic query of the mount effect is suppressed
    whenever some control, query-affecting or not, has a non-empty
    [validationErrors] list; the suppressed effect dispatches nothing at
    all, so it neither clears nor alters what is displayed; and when no
    control has a validation error the query is issued. *)
Theorem mountQueryEffect_gated_by_any_validation_error (controls : Snapshot)
                                                       (chartId : jsval) :
  ((exists (name : string) (control : Control),
       controls !! name = Some control /\ hasValidationErrors control = true) ->
   mountQueryEffect controls chartId = [])
  /\
  ((forall (name : string) (control : Control),
       controls !! name = Some control -> hasValidationErrors control = false) ->
   mountQueryEffect controls chartId = [TriggerQuery true chartId]).
Proof.
  unfold mountQueryEffect. split.
  - intros (name & control & Hlookup & Herr).
    replace (existsb hasValidationErrors (Object_values controls)) with true;
      [reflexivity|].
    symmetry. apply existsb_exists. exists control. split; [|exact Herr].
    apply Object_values_In. eauto.
  - intros Hnone.
    replace (existsb hasValidationErrors (Object_values controls)) with false;
      [reflexivity|].
    symmetry. apply not_true_is_false. intros Hex.
    apply existsb_exists in Hex as (control & Hin & Herr).
    apply Object_values_In in Hin as [name Hlookup].
    rewrite (Hnone name control Hlookup) in Herr. discriminate.
Qed.

(** ** Properties of the persist routine *)

Section PersistFacts.
Variable imports : Imports.

Lemma copy_reserved_untouched (entries : list (string * jsval)) (name : string) :
  isReservedParam imports name = true ->
  forall acc : gmap string jsval,
    fold_left (copyEntry imports) entries acc !! name = acc !! name.
Proof.
  intros Hres. induction entries as [|[k v] rest IH]; intros acc; [reflexivity|].
  cbn [fold_left]. rewrite IH. unfold copyEntry. cbn [fst snd].
  destruct (isReservedParam imports k) eqn:Hk; cbn [negb]; [reflexivity|].
  apply lookup_insert_ne. intros ->. congruence.
Qed.

Lemma copy_absent_untouched (entries : list (string * jsval)) (name : string) :
  name ∉ entries.*1 ->
  forall acc : gmap string jsval,
    fold_left (copyEntry imports) entries acc !! name = acc !! name.
Proof.
  induction entries as [|[k v] rest IH]; intros Hnot acc; [reflexivity|].
  rewrite fmap_cons in Hnot. cbn [fst] in Hnot.
  apply not_elem_of_cons in Hnot as [Hne Hnot].
  cbn [fold_left]. rewrite (IH Hnot). unfold copyEntry. cbn [fst snd].
  destruct (negb (isReservedParam imports k)); [|reflexivity].
  apply lookup_insert_ne. congruence.
Qed.

Lemma copy_present_written (entries : list (string * jsval))
                           (name : string) (v : jsval) :
  NoDup entries.*1 ->
  (name, v) ∈ entries ->
  isReservedParam imports name = false ->
  forall acc : gmap string jsval,
    fold_left (copyEntry imports) entries acc !! name = Some v.
Proof.
  intros Hnodup Hin Hfree.
  induction entries as [|[k w] rest IH]; intros acc.
  - apply elem_of_nil in Hin. contradiction.
  - rewrite fmap_cons in Hnodup. cbn [fst] in Hnodup.
    apply NoDup_cons in Hnodup as [Hfresh Hnodup].
    cbn [fold_left].
    apply elem_of_cons in Hin as [Heq|Hin].
    + injection Heq as <- <-.
      rewrite (copy_absent_untouched rest name Hfresh).
      unfold copyEntry. cbn [fst snd]. rewrite Hfree. cbn [negb].
      apply lookup_insert_eq.
    + apply (IH Hnodup Hin).
Qed.

(** What the loop leaves under each name. *)
Lemma copyUrlParams_lookup (urlParams additionalParam : gmap string jsval)
                           (name : string) :
  copyUrlParams imports urlParams additionalParam !! name
  = if isReservedParam imports name then additionalParam !! name
    else match urlParams !! name with
         | Some v => Some v
         | None => additionalParam !! name
         end.
Proof.
  unfold copyUrlParams.
  destruct (isReservedParam imports name) eqn:Hres.
  - apply copy_reserved_untouched. exact Hres.
  - destruct (urlParams !! name) as [v|] eqn:Hlookup.
    + apply copy_present_written; [apply NoDup_fst_map_to_list| |exact Hres].
      apply elem_of_map_to_list. exact Hlookup.
    + apply copy_absent_untouched. intros Hin.
      apply list_elem_of_fmap in Hin as [[k v] [Hk Hin]]. cbn [fst] in Hk. subst k.
      apply elem_of_map_to_list in Hin. congruence.
Qed.

(** The persistence request is issued before the routine suspends, so it
    is part of every run. *)
Lemma updateHistoryBody_requests (args : UpdateArgs) (w : Window)
                                 (response : Response)
                                 (inFlight : Window -> Window) :
  requests (updateHistoryBody imports args w response inFlight)
  = [persistRequest imports args w].
Proof.
  unfold updateHistoryBody.
  destruct response; [destruct (routeStillActive imports (inFlight w))|];
    reflexivity.
Qed.
End PersistFacts.

(** C6 (navigation-race guard).  In every run of the persist routine the
    window (address bar and session history) the run leaves differs from the
    one it resumed on only if the store answered and the path, read after
    the answer came, still starts with the explore route; when the user has
    navigated away the window is left as it was found; the request to the
    store is issued in either case. *)
Theorem navigation_mutated_only_if_route_still_active
    (imports : Imports) (args : UpdateArgs) (w : Window)
    (response : Response) (inFlight : Window -> Window) :
  (window_after (updateHistoryBody imports args w response inFlight) <> inFlight w ->
   routeStillActive imports (inFlight w) = true /\
   exists result : jsval, response = Resolved result)
  /\
  (routeStillActive imports (inFlight w) = false ->
   window_after (updateHistoryBody imports args w response inFlight) = inFlight w)
  /\
  requests (updateHistoryBody imports args w response inFlight)
  = [persistRequest imports args w].
Proof.
  split; [|split].
  - unfold updateHistoryBody. destruct response as [result|].
    + destruct (routeStillActive imports (inFlight w)); cbn [window_after].
      * eauto.
      * intros Hne. contradiction Hne. reflexivity.
    + cbn [window_after]. intros Hne. contradiction Hne. reflexivity.
  - intros Hgone. unfold updateHistoryBody. rewrite Hgone.
    destruct response; reflexivity.
  - apply updateHistoryBody_requests.
Qed.

(** C7 (replace or push).  In every run of the persist routine: with
    [isReplace] the query definition is posted to the store, and otherwise
    the key is read from the address bar and the store entry at that key is
    updated; whatever the run does to the window it does with [replaceState]
    under [isReplace] and with [pushState] otherwise; and in a run that the
    store answers and whose route is still active when it resumes the window
    is so changed: under [isReplace] with the key the store answered with,
    the entries below the current one being kept as they are (no new entry),
    and otherwise with the key of the address bar, all entries being kept
    below the new one. *)
Theorem persist_replaces_or_pushes
    (imports : Imports) (args : UpdateArgs) (w : Window)
    (response : Response) (inFlight : Window -> Window) :
  requests (updateHistoryBody imports args w response inFlight)
  = [if isReplace args
     then PostFormData (datasourceId args) (datasourceType args) (formData args)
                       (slice_id (formData args)) (tabId args)
     else PutFormData (datasourceId args) (datasourceType args)
                      (getUrlParam (URL_PARAMS_formDataKey_name imports) w)
                      (formData args) (slice_id (formData args)) (tabId args)]
  /\
  (window_after (updateHistoryBody imports args w response inFlight) = inFlight w
   \/
   exists url : Url,
     window_after (updateHistoryBody imports args w response inFlight)
     = (if isReplace args then replaceState else pushState)
         (formData args) (title args) url (inFlight w))
  /\
  (forall result : jsval,
      response = Resolved result ->
      routeStillActive imports (inFlight w) = true ->
      window_after (updateHistoryBody imports args w response inFlight)
      = (if isReplace args then replaceState else pushState)
          (formData args) (title args)
          (mountExploreUrl imports
             (if standalone args
              then Some (URL_PARAMS_standalone_name imports) else None)
             (exploreUrlSearch imports args w
                (if isReplace args then result
                 else getUrlParam (URL_PARAMS_formDataKey_name imports) w))
             (force args))
          (inFlight w)
      /\
      tail (history_entries
              (window_after (updateHistoryBody imports args w response inFlight)))
      = if isReplace args
        then tail (history_entries (inFlight w))
        else history_entries (inFlight w)).
Proof.
  split; [|split].
  - rewrite updateHistoryBody_requests. unfold persistRequest.
    destruct (isReplace args); reflexivity.
  - unfold updateHistoryBody, stateModifierOf.
    destruct response as [result|]; [|left; reflexivity].
    destruct (routeStillActive imports (inFlight w)); [|left; reflexivity].
    right. destruct (isReplace args); eexists; reflexivity.
  - intros result -> Hactive.
    unfold updateHistoryBody, stateModifierOf. rewrite Hactive.
    destruct (isReplace args); split; reflexivity.
Qed.


(** ** Scenarios *)

(** The grain changes from day to week: the query is stale and nothing is
    classified as display-only. *)
Example scenario_granularity_changed :
  chartIsStale (Some (granularityIs "day")) (granularityIs "week") = true
  /\ changedControlKeys (granularityIs "day") (granularityIs "week") = ["granularity"]
  /\ displayControlsChanged (granularityIs "day") (granularityIs "week") = [].
Proof. vm_compute. repeat split. Qed.

(** The colour scheme, a [renderTrigger] control, changes: the query is not
    stale and the chart is re-rendered for that control. *)
Example scenario_color_scheme_changed :
  chartIsStale (Some (colorSchemeIs "set1" None)) (colorSchemeIs "set2" None) = false
  /\ controlsChangedEffect (Some (colorSchemeIs "set1" None)) true
                           (colorSchemeIs "set2" None)
     = [ReRenderChart ["color_scheme"]].
Proof. vm_compute. repeat split. Qed.

(** Two filter values that differ in the annotation field only: the
    classifier sees a change, the staleness detector does not. *)
Example scenario_annotation_field_ignored :
  chartIsStale (Some (filtersAre false)) (filtersAre true) = false
  /\ changedControlKeys (filtersAre false) (filtersAre true) = ["adhoc_filters"].
Proof. vm_compute. repeat split. Qed.

(** A control that the previous snapshot does not have is not classified. *)
Example scenario_new_control_not_classified :
  changedControlKeys (granularityIs "day")
                     (granularityIs "day" ∪ colorSchemeIs "set1" None) = [].
Proof. vm_compute. reflexivity. Qed.

(** The plugin finishes loading on the second pass and starts loading again
    on the fourth: only the second pass reconciles. *)
Example scenario_plugin_finishes_loading :
  pluginLoadPasses pluginHooksInit [Some true; Some false; Some false; Some true]
  = [[]; [DynamicPluginControlsReady]; []; []].
Proof. reflexivity. Qed.

(** The handler of [popstate] changes on the second pass: its effect first
    removes the old listener, then registers the new one. *)
Example scenario_popstate_handler_replaced :
  List.map (fun pass => List.map (fun reg => reg TWindow Popstate) (snd (fst pass)))
           (bridgePasses bridgeInit [(1, 1); (2, 1)]%nat)
  = [[[1]; [1]]; [[]; []; []; [2]; [2]; [2]]]%nat.
Proof. reflexivity. Qed.

(** Two calls 200 ms apart against the window of 1000 ms: one run, with the
    arguments of the second call, 1000 ms after it. *)
Lemma updateHistory_two_calls_200ms_apart :
  withinWindow 1000 (fst (0, queryArgs "day")) [(200, queryArgs "week")] = true
  /\ snd (updateHistory [(0, queryArgs "day"); (200, queryArgs "week")])
     = [(1200, queryArgs "week")]
  /\ timerId (fst (updateHistory [(0, queryArgs "day"); (200, queryArgs "week")]))
     = None.
Proof.
  split; [reflexivity|].
  exact (updateHistory_burst_persists_once_with_last_args
           (0, queryArgs "day") [(200, queryArgs "week")] eq_refl).
Defined.

(** Two calls more than a window apart are not coalesced. *)
Example scenario_calls_a_window_apart :
  snd (updateHistory [(0, queryArgs "day"); (1200, queryArgs "week")])
  = [(1000, queryArgs "day"); (2200, queryArgs "week")].
Proof. reflexivity. Qed.

(** The user leaves the explore page while the store is answering: the
    window is left as the navigation made it, and the request went out. *)
Lemma navigation_skipped_after_leaving_explore :
  routeStillActive sampleImports (navigateAway sampleWindow) = false
  /\ window_after (updateHistoryBody sampleImports (sampleArgs false) sampleWindow
                     (Resolved VUndefined) navigateAway)
     = navigateAway sampleWindow.
Proof.
  split; [reflexivity|].
  exact (proj1 (proj2 (navigation_mutated_only_if_route_still_active
                         sampleImports (sampleArgs false) sampleWindow
                         (Resolved VUndefined) navigateAway))
               eq_refl).
Defined.

(** A push on the sample page: the entry at the key of the address bar is
    updated and the new history entry goes on top of the old one. *)
Lemma persist_pushes_on_sample_page :
  routeStillActive sampleImports (stayOnPage sampleWindow) = true
  /\ requests (updateHistoryBody sampleImports (sampleArgs false) sampleWindow
                 (Resolved VUndefined) stayOnPage)
     = [PutFormData (VNum 3) (VStr "table") (VStr "oldKey") sampleFormData
                    (VNum 42) (VStr "tab-1")]
  /\ tail (history_entries
             (window_after (updateHistoryBody sampleImports (sampleArgs false)
                              sampleWindow (Resolved VUndefined) stayOnPage)))
     = history_entries sampleWindow.
Proof.
  split; [reflexivity|].
  pose proof (persist_replaces_or_pushes sampleImports (sampleArgs false)
                sampleWindow (Resolved VUndefined) stayOnPage)
    as (Hrequest & _ & Hwindow).
  split; [exact Hrequest|].
  exact (proj2 (Hwindow VUndefined eq_refl eq_refl)).
Defined.

(** A replace on the sample page: the query definition is posted and the
    current history entry is overwritten. *)
Example scenario_replace_on_sample_page :
  requests (updateHistoryBody sampleImports (sampleArgs true) sampleWindow
              (Resolved (VStr "newKey")) stayOnPage)
  = [PostFormData (VNum 3) (VStr "table") sampleFormData (VNum 42) (VStr "tab-1")]
  /\ length (history_entries
               (window_after (updateHistoryBody sampleImports (sampleArgs true)
                                sampleWindow (Resolved (VStr "newKey")) stayOnPage)))
     = 1%nat.
Proof. vm_compute. repeat split. Qed.


(** The reserved [slice_id] of [url_params] is not copied: the URL carries
    the id of the chart. *)
Example scenario_reserved_param_not_copied :
  exploreUrlSearch sampleImports (sampleArgs false) sampleWindow (VStr "oldKey")
    !! "slice_id"
  = Some (VNum 42).
Proof. vm_compute. reflexivity. Qed.

(** No control has a validation error: the query is issued at mount. *)
Lemma mount_query_issued_without_errors :
  (forall (name : string) (control : Control),
      granularityIs "day" !! name = Some control ->
      hasValidationErrors control = false)
  /\ mountQueryEffect (granularityIs "day") (VNum 7) = [TriggerQuery true (VNum 7)].
Proof.
  assert (Hclean : forall (name : string) (control : Control),
             granularityIs "day" !! name = Some control ->
             hasValidationErrors control = false).
  { intros name control Hlookup. unfold granularityIs in Hlookup.
    apply lookup_singleton_Some in Hlookup as [_ <-]. reflexivity. }
  split; [exact Hclean|].
  exact (proj2 (mountQueryEffect_gated_by_any_validation_error
                  (granularityIs "day") (VNum 7)) Hclean).
Defined.

(** ** Reflexivity of the comparisons, and what follows from it *)

Lemma getField_of_unique {A : Type} (fields : list (string * A))
                         (key : string) (v : A) :
  uniqueKeys (List.map fst fields) = true ->
  In (key, v) fields ->
  getField key fields = Some v.
Proof.
  induction fields as [|[k w] rest IH]; intros Huniq Hin; [contradiction|].
  cbn [List.map fst uniqueKeys] in Huniq.
  apply andb_true_iff in Huniq as [Hfresh Huniq].
  apply negb_true_iff in Hfresh.
  cbn [getField]. destruct Hin as [Heq|Hin].
  - injection Heq as -> ->. rewrite String.eqb_refl. reflexivity.
  - destruct (String.eqb_spec k key) as [->|Hne]; [|auto].
    exfalso. apply not_true_iff_false in Hfresh. apply Hfresh.
    apply existsb_exists. exists key. split.
    + apply in_map_iff. exists (key, v). auto.
    + apply String.eqb_refl.
Qed.

Lemma equalArrays_refl (xs : list jsval) :
  Forall (fun x => isEqual x x = true) xs ->
  isEqual (VArr xs) (VArr xs) = true.
Proof.
  cbn [isEqual]. induction 1 as [|x rest Hx _ IH]; [reflexivity|].
  rewrite Hx. exact IH.
Qed.

(** lodash's [isEqual] holds between a well-formed value and itself. *)
Lemma isEqual_refl (v : jsval) : wellFormed v = true -> isEqual v v = true.
Proof.
  induction v as [| |b|n|s|xs IH|fs IH] using jsval_nested_ind; intros Hwf;
    cbn [isEqual].
  - reflexivity.
  - reflexivity.
  - apply Bool.eqb_reflx.
  - apply Z.eqb_refl.
  - apply String.eqb_refl.
  - apply equalArrays_refl. cbn [wellFormed] in Hwf.
    rewrite forallb_forall in Hwf. rewrite List.Forall_forall in IH |- *.
    intros x Hx. apply IH; [exact Hx|]. apply Hwf, Hx.
  - cbn [wellFormed] in Hwf. apply andb_true_iff in Hwf as [Huniq Hwf].
    rewrite Nat.eqb_refl. cbn [andb].
    rewrite forallb_forall in Hwf |- *. rewrite List.Forall_forall in IH.
    intros [k w] Hin. cbn [fst snd].
    rewrite (getField_of_unique fs k w Huniq Hin).
    apply (IH (k, w) Hin). apply (Hwf (k, w) Hin).
Qed.

Lemma existsb_filter_sub {A : Type} (f p : A -> bool) (l : list A) :
  existsb f (List.filter p l) = true -> existsb f l = true.
Proof.
  rewrite !existsb_exists. intros (x & Hin & Hf).
  apply filter_In in Hin as [Hin _]. eauto.
Qed.

Lemma uniqueKeys_filter (p : string -> bool) (keys : list string) :
  uniqueKeys keys = true -> uniqueKeys (List.filter p keys) = true.
Proof.
  induction keys as [|key rest IH]; [reflexivity|].
  cbn [uniqueKeys List.filter]. intros Huniq.
  apply andb_true_iff in Huniq as [Hfresh Huniq].
  destruct (p key); [|auto].
  cbn [uniqueKeys]. rewrite (IH Huniq), andb_true_r.
  apply negb_true_iff, not_true_is_false. intros Hex.
  apply existsb_filter_sub in Hex. rewrite Hex in Hfresh. discriminate.
Qed.

(** The keys that [omitFields] leaves in an object are those of the object
    that are not ignored, in the same order. *)
Lemma omitFields_keys (ignoreFields : list string) (fs : list (string * jsval)) :
  List.map fst
    (List.filter
       (fun kv => negb (existsb (String.eqb (fst kv)) ignoreFields))
       (List.map (fun kv => (fst kv, omitFields ignoreFields (snd kv))) fs))
  = List.filter (fun key => negb (existsb (String.eqb key) ignoreFields))
                (List.map fst fs).
Proof.
  induction fs as [|[k v] rest IH]; [reflexivity|].
  cbn [List.map List.filter fst snd].
  destruct (negb (existsb (String.eqb k) ignoreFields));
    cbn [List.map fst]; rewrite IH; reflexivity.
Qed.

Lemma wellFormed_omitFields (ignoreFields : list string) (v : jsval) :
  wellFormed v = true -> wellFormed (omitFields ignoreFields v) = true.
Proof.
  induction v as [| |b|n|s|xs IH|fs IH] using jsval_nested_ind; intros Hwf;
    try exact Hwf.
  - cbn [omitFields wellFormed] in *.
    rewrite forallb_forall in Hwf |- *. rewrite List.Forall_forall in IH.
    intros y Hy. apply in_map_iff in Hy as (x & <- & Hx).
    apply IH; [exact Hx|]. apply Hwf, Hx.
  - cbn [omitFields wellFormed] in *.
    apply andb_true_iff in Hwf as [Huniq Hwf].
    rewrite omitFields_keys, (uniqueKeys_filter _ _ Huniq). cbn [andb].
    rewrite forallb_forall in Hwf |- *. rewrite List.Forall_forall in IH.
    intros kv Hkv. apply filter_In in Hkv as [Hkv _].
    apply in_map_iff in Hkv as ([k w] & <- & Hin). cbn [fst snd].
    apply (IH (k, w) Hin). apply (Hwf (k, w) Hin).
Qed.

Lemma staleValueChanged_refl (v : jsval) :
  wellFormed v = true -> staleValueChanged v v = false.
Proof.
  intros Hwf. rewrite staleValueChanged_areObjectsEqual.
  unfold areObjectsEqual.
  rewrite (isEqual_refl _ (wellFormed_omitFields _ _ Hwf)). reflexivity.
Qed.

Lemma filter_none {A : Type} (f : A -> bool) (l : list A) :
  (forall x, In x l -> f x = false) -> List.filter f l = [].
Proof.
  induction l as [|x rest IH]; intros Hnone; [reflexivity|].
  cbn [List.filter]. rewrite (Hnone x (or_introl eq_refl)).
  apply IH. intros y Hy. apply Hnone. right. exact Hy.
Qed.

(** X1.  Running the query clears staleness: [onQuery] stores the current
    controls as the last-queried ones, and against a snapshot equal to the
    current one [chartIsStale] is false, so the render pass that follows
    emits no telemetry either. *)
Theorem query_run_clears_staleness (controls : Snapshot)
                                   (lastQueried : option Snapshot) :
  snapshotWellFormed controls ->
  chartIsStale (Some controls) controls = false
  /\ renderPass (applyCause (mkStaleState controls lastQueried) QueryRun)
     = (false, []).
Proof.
  intros Hwf.
  assert (Hfresh : chartIsStale (Some controls) controls = false).
  { unfold chartIsStale.
    rewrite (filter_none _ (Object_keys controls)); [reflexivity|].
    intros key _. destruct (controls !! key) as [control|] eqn:Hkey; [|reflexivity].
    apply staleValueChanged_refl. exact (Hwf key control Hkey). }
  split; [exact Hfresh|].
  unfold renderPass, renderLogEvents, applyCause.
  cbn [props_controls lastQueriedControls]. rewrite Hfresh. reflexivity.
Qed.

Lemma query_run_clears_staleness_example :
  snapshotWellFormed (filtersAre true)
  /\ chartIsStale (Some (filtersAre true)) (filtersAre true) = false
  /\ renderPass (applyCause (mkStaleState (filtersAre true)
                                          (Some (filtersAre false))) QueryRun)
     = (false, []).
Proof.
  assert (Hwf : snapshotWellFormed (filtersAre true)).
  { intros name control Hlookup. unfold filtersAre in Hlookup.
    apply lookup_singleton_Some in Hlookup as [_ <-]. reflexivity. }
  split; [exact Hwf|].
  exact (query_run_clears_staleness (filtersAre true) (Some (filtersAre false)) Hwf).
Defined.

(** X2.  Classifying a snapshot against itself finds nothing: no control
    key is reported as changed, none as display-only, and the effect does
    not re-render the chart. *)
Theorem same_snapshot_classifies_nothing (controls : Snapshot)
                                         (vizTypeMatches : bool) :
  snapshotWellFormed controls ->
  changedControlKeys controls controls = []
  /\ displayControlsChanged controls controls = []
  /\ controlsChangedEffect (Some controls) vizTypeMatches controls = [].
Proof.
  intros Hwf.
  assert (Hnone : changedControlKeys controls controls = []).
  { unfold changedControlKeys. apply filter_none.
    intros key _. destruct (controls !! key) as [control|] eqn:Hkey; [|reflexivity].
    cbn [areObjectsEqual].
    rewrite (isEqual_refl _ (Hwf key control Hkey)). reflexivity. }
  unfold controlsChangedEffect, displayControlsChanged. rewrite Hnone.
  repeat split. destruct vizTypeMatches; reflexivity.
Qed.

Lemma same_snapshot_classifies_nothing_example :
  snapshotWellFormed (colorSchemeIs "set1" None)
  /\ changedControlKeys (colorSchemeIs "set1" None) (colorSchemeIs "set1" None) = []
  /\ displayControlsChanged (colorSchemeIs "set1" None) (colorSchemeIs "set1" None) = []
  /\ controlsChangedEffect (Some (colorSchemeIs "set1" None)) true
                           (colorSchemeIs "set1" None) = [].
Proof.
  assert (Hwf : snapshotWellFormed (colorSchemeIs "set1" None)).
  { intros name control Hlookup. unfold colorSchemeIs in Hlookup.
    apply lookup_singleton_Some in Hlookup as [_ <-]. reflexivity. }
  split; [exact Hwf|].
  exact (same_snapshot_classifies_nothing (colorSchemeIs "set1" None) true Hwf).
Defined.

(** ** Further properties of the debounced history synchroniser *)

Section DebounceOrdered.
Context {Args : Type}.
Variable wait : Z.
Hypothesis wait_positive : 0 < wait.

(** From a pending call, the timers that fire before a later instant either
    leave the call pending, or invoke it, once, at the end of its window. *)
Lemma fireTimers_from_pending (d : Debounced Args) (time time' : Z) (args : Args) :
  pendingSince wait d time args ->
  time <= time' ->
  (exists d',
      fireTimers wait 2 (Some time') d = (d', []) /\
      time' < time + wait /\
      lastArgs d' = Some args /\
      lastCallTime d' = Some time /\
      exists due, timerId d' = Some due /\ time' < due <= time + wait)
  \/
  (fireTimers wait 2 (Some time') d
   = (mkDebounced None (Some time) None, [(time + wait, args)]) /\
   time + wait <= time').
Proof using wait_positive.
  intros (Hargs & Hlast & due & Htimer & Hdue) Hle.
  destruct d as [la lc ti]. simpl in *. subst la lc ti.
  unfold fireTimers. simpl.
  destruct (Z.leb_spec due time') as [Hfire|Hwait].
  - unfold timerExpired, shouldInvoke. simpl.
    destruct (Z.leb_spec wait (due - time)) as [Hnow|Hlater]; simpl.
    + right. replace due with (time + wait) in * by lia. split; [reflexivity|lia].
    + replace (due - time <? 0) with false by (symmetry; apply Z.ltb_ge; lia).
      simpl.
      replace (due + (wait - (due - time))) with (time + wait) by lia.
      destruct (Z.leb_spec (time + wait) time') as [Hfire2|Hwait2].
      * right.
        replace (wait <=? time + wait - time) with true
          by (symmetry; apply Z.leb_le; lia).
        simpl. split; [reflexivity|lia].
      * left. eexists. split; [reflexivity|]. simpl.
        split; [lia|]. split; [reflexivity|]. split; [reflexivity|].
        eexists. split; [reflexivity|]. lia.
  - left. eexists. split; [reflexivity|]. simpl.
    split; [lia|]. split; [reflexivity|]. split; [reflexivity|].
    exists due. split; [reflexivity|]. lia.
Qed.

(** One more call, not earlier than the pending one: the new call is
    pending afterwards, and what was invoked meanwhile is nothing or the
    call that was pending. *)
Lemma debouncedCall_after_pending (d : Debounced Args) (time time' : Z)
                                  (args args' : Args) :
  pendingSince wait d time args ->
  time <= time' ->
  exists d1 out1,
    fireTimers wait 2 (Some time') d = (d1, out1) /\
    pendingSince wait (debouncedCall wait d1 time' args') time' args' /\
    ((out1 = [] /\ time' < time + wait) \/
     (out1 = [invocationOf wait (time, args)] /\ time + wait <= time')).
Proof using wait_positive.
  intros Hpend Hle.
  destruct (fireTimers_from_pending d time time' args Hpend Hle)
    as [(d' & Hfire & Hlt & _ & _ & due & Htimer & Hdue)|[Hfire Hge]].
  - exists d', []. split; [exact Hfire|]. split; [|left; auto].
    apply debouncedCall_pending; [exact wait_positive|]. rewrite Htimer. lia.
  - eexists _, _. split; [exact Hfire|]. split; [|right; auto].
    apply debouncedCall_pending; [exact wait_positive|]. exact I.
Qed.

Lemma debouncedCalls_ordered (calls : list (Z * Args)) :
  forall (d : Debounced Args) (time : Z) (args : Args),
    pendingSince wait d time args ->
    timeOrdered time calls = true ->
    exists d' out,
      debouncedCalls wait d calls = (d', out) /\
      pendingSince wait d' (fst (List.last calls (time, args)))
                           (snd (List.last calls (time, args))) /\
      Forall (fun invocation =>
                exists call, In call ((time, args) :: calls) /\
                             invocation = invocationOf wait call) out /\
      (length out <= length calls)%nat.
Proof using wait_positive.
  induction calls as [|[time' args'] rest IH]; intros d time args Hpend Hord.
  - exists d, []. split; [reflexivity|]. split; [exact Hpend|].
    split; [constructor|reflexivity].
  - cbn [timeOrdered] in Hord. apply andb_true_iff in Hord as [Hle Hord].
    apply Z.leb_le in Hle.
    destruct (debouncedCall_after_pending d time time' args args' Hpend Hle)
      as (d1 & out1 & Hfire & Hpend1 & Hout1).
    destruct (IH _ _ _ Hpend1 Hord) as (d2 & out2 & Hcalls & Hpend2 & Hall & Hlen).
    exists d2, (out1 ++ out2). cbn [debouncedCalls].
    rewrite Hfire, Hcalls. split; [reflexivity|].
    split; [rewrite last_cons_default; exact Hpend2|]. split.
    + apply Forall_app. split.
      * destruct Hout1 as [[-> _]|[-> _]]; [constructor|].
        constructor; [|constructor]. exists (time, args).
        split; [left; reflexivity|reflexivity].
      * eapply Forall_impl; [exact Hall|].
        intros invocation (call & Hin & Heq). exists call.
        split; [right; exact Hin|exact Heq].
    + rewrite length_app. cbn [length].
      destruct Hout1 as [[-> _]|[-> _]]; cbn [length]; lia.
Qed.

End DebounceOrdered.

Lemma debounceSession_first_call {Args : Type} (wait : Z)
                                 (first : Z * Args) (rest : list (Z * Args)) :
  debounceSession wait (first :: rest)
  = (let '(d, out) :=
       debouncedCalls wait (debouncedCall wait debouncedInit (fst first) (snd first))
                      rest in
     let '(d', out') := fireTimers wait 2 None d in
     (d', out ++ out')).
Proof.
  destruct first as [time args]. unfold debounceSession. cbn [debouncedCalls fst snd].
  assert (Hidle : fireTimers wait 2 (Some time) (@debouncedInit Args)
                  = (debouncedInit, [])) by reflexivity.
  rewrite Hidle.
  destruct (debouncedCalls wait (debouncedCall wait debouncedInit time args) rest)
    as [d out].
  reflexivity.
Qed.

(** X3.  Whatever the rhythm of the calls, as long as they come in time
    order, the last call of [updateHistory] is not lost: the last run of
    the persist routine is the one with the arguments of the last call,
    1000 ms after it, and no timer is left pending. *)
Theorem updateHistory_last_call_runs_last
    (first : Z * UpdateArgs) (rest : list (Z * UpdateArgs)) :
  timeOrdered (fst first) rest = true ->
  (exists earlier : list (Z * UpdateArgs),
      snd (updateHistory (first :: rest))
      = earlier ++ [invocationOf 1000 (List.last rest first)])
  /\ timerId (fst (updateHistory (first :: rest))) = None.
Proof.
  intros Hord. unfold updateHistory. rewrite debounceSession_first_call.
  assert (Hp : pendingSince 1000
                 (debouncedCall 1000 debouncedInit (fst first) (snd first))
                 (fst first) (snd first)).
  { apply debouncedCall_pending; [lia|exact I]. }
  destruct (debouncedCalls_ordered 1000 ltac:(lia) rest _ _ _ Hp Hord)
    as (d' & out & Hcalls & Hpend & _ & _).
  rewrite Hcalls, (fireTimers_trailing 1000 ltac:(lia) _ _ _ Hpend).
  replace (fst first, snd first) with first by (destruct first; reflexivity).
  split; [exists out; reflexivity|reflexivity].
Qed.

Lemma updateHistory_last_call_runs_last_example :
  timeOrdered (fst (0, queryArgs "day"))
              [(1500, queryArgs "week"); (1700, queryArgs "month")] = true
  /\ (exists earlier : list (Z * UpdateArgs),
         snd (updateHistory [(0, queryArgs "day"); (1500, queryArgs "week");
                             (1700, queryArgs "month")])
         = earlier ++ [(2700, queryArgs "month")])
  /\ timerId (fst (updateHistory [(0, queryArgs "day"); (1500, queryArgs "week");
                                  (1700, queryArgs "month")])) = None.
Proof.
  split; [reflexivity|].
  exact (updateHistory_last_call_runs_last
           (0, queryArgs "day")
           [(1500, queryArgs "week"); (1700, queryArgs "month")] eq_refl).
Defined.

Lemma last_In_cons {A : Type} (l : list A) :
  forall x : A, In (List.last l x) (x :: l).
Proof.
  induction l as [|y rest IH]; intros x; [left; reflexivity|].
  rewrite last_cons_default. right. apply IH.
Qed.

(** X4.  The debounced [updateHistory] never runs the persist routine with
    arguments nobody passed, nor before its time, nor more often than it was
    called: for calls in time order, every run has the arguments of one of
    the calls and happens exactly 1000 ms after that call, and there are at
    most as many runs as calls. *)
Theorem updateHistory_runs_come_from_calls
    (first : Z * UpdateArgs) (rest : list (Z * UpdateArgs)) :
  timeOrdered (fst first) rest = true ->
  Forall (fun run : Z * UpdateArgs =>
            exists call : Z * UpdateArgs,
              In call (first :: rest) /\ run = invocationOf 1000 call)
         (snd (updateHistory (first :: rest)))
  /\ (length (snd (updateHistory (first :: rest))) <= length (first :: rest))%nat.
Proof.
  intros Hord. unfold updateHistory. rewrite debounceSession_first_call.
  assert (Hp : pendingSince 1000
                 (debouncedCall 1000 debouncedInit (fst first) (snd first))
                 (fst first) (snd first)).
  { apply debouncedCall_pending; [lia|exact I]. }
  destruct (debouncedCalls_ordered 1000 ltac:(lia) rest _ _ _ Hp Hord)
    as (d' & out & Hcalls & Hpend & Hall & Hlen).
  rewrite Hcalls, (fireTimers_trailing 1000 ltac:(lia) _ _ _ Hpend).
  replace (fst first, snd first) with first in * by (destruct first; reflexivity).
  cbn [snd]. split.
  - apply Forall_app. split; [exact Hall|].
    constructor; [|constructor]. exists (List.last rest first). split.
    + apply last_In_cons.
    + reflexivity.
  - rewrite length_app. cbn [length]. lia.
Qed.

Lemma updateHistory_runs_come_from_calls_example :
  timeOrdered (fst (0, queryArgs "day"))
              [(200, queryArgs "week"); (1500, queryArgs "month")] = true
  /\ Forall (fun run : Z * UpdateArgs =>
               exists call : Z * UpdateArgs,
                 In call [(0, queryArgs "day"); (200, queryArgs "week");
                          (1500, queryArgs "month")]
                 /\ run = invocationOf 1000 call)
            (snd (updateHistory [(0, queryArgs "day"); (200, queryArgs "week");
                                 (1500, queryArgs "month")]))
  /\ (length (snd (updateHistory [(0%Z, queryArgs "day"); (200%Z, queryArgs "week");
                                  (1500%Z, queryArgs "month")])) <= 3)%nat.
Proof.
  split; [reflexivity|].
  exact (updateHistory_runs_come_from_calls
           (0, queryArgs "day")
           [(200, queryArgs "week"); (1500, queryArgs "month")] eq_refl).
Defined.





(** ** Further properties of the persist routine *)



(** X7.  The URL names the chart, or else the datasource: when the identity
    parameters are reserved, the parameter set built for the URL has the
    chart id under the slice-id name if the query definition has a (truthy)
    [slice_id], and otherwise the datasource id and type under their names;
    neither the address bar nor [url_params] can put anything else there. *)
Theorem url_identity_is_chart_else_datasource
    (imports : Imports) (args : UpdateArgs) (w : Window) (key : jsval) :
  (truthy (slice_id (formData args)) = true ->
   isReservedParam imports (URL_PARAMS_sliceId_name imports) = true ->
   exploreUrlSearch imports args w key !! URL_PARAMS_sliceId_name imports
   = Some (slice_id (formData args)))
  /\
  (truthy (slice_id (formData args)) = false ->
   isReservedParam imports (URL_PARAMS_datasourceId_name imports) = true ->
   isReservedParam imports (URL_PARAMS_datasourceType_name imports) = true ->
   URL_PARAMS_datasourceId_name imports <> URL_PARAMS_datasourceType_name imports ->
   exploreUrlSearch imports args w key !! URL_PARAMS_datasourceId_name imports
   = Some (datasourceId args)
   /\
   exploreUrlSearch imports args w key !! URL_PARAMS_datasourceType_name imports
   = Some (datasourceType args)).
Proof.
  split.
  - intros Hchart Hres. unfold exploreUrlSearch, additionalParamOf.
    apply lookup_union_Some_l.
    rewrite copyUrlParams_lookup, Hres. unfold identityParams. rewrite Hchart.
    apply lookup_insert_eq.
  - intros Hnochart Hid Hty Hne. unfold exploreUrlSearch, additionalParamOf.
    split; apply lookup_union_Some_l; rewrite copyUrlParams_lookup.
    + rewrite Hid. unfold identityParams. rewrite Hnochart.
      rewrite lookup_insert_ne by congruence. apply lookup_insert_eq.
    + rewrite Hty. unfold identityParams. rewrite Hnochart.
      apply lookup_insert_eq.
Qed.

Lemma url_identity_is_chart_else_datasource_example :
  truthy (slice_id (formData (sampleArgs false))) = true
  /\ isReservedParam sampleImports (URL_PARAMS_sliceId_name sampleImports) = true
  /\ default ∅ (url_params (formData (sampleArgs false))) !! "slice_id"
     = Some (VNum 999)
  /\ exploreUrlSearch sampleImports (sampleArgs false) sampleWindow (VStr "k")
       !! URL_PARAMS_sliceId_name sampleImports
     = Some (VNum 42).
Proof.
  split; [reflexivity|]. split; [reflexivity|]. split; [reflexivity|].
  exact (proj1 (url_identity_is_chart_else_datasource sampleImports
                  (sampleArgs false) sampleWindow (VStr "k"))
               eq_refl eq_refl).
Defined.

(** X8.  A form-data key that is already in the address bar takes
    precedence over the key the routine passes: with the form-data-key name
    reserved and different from the identity names, the parameter set built
    for the URL has the address bar's key when there is one, and the passed
    key only when there is none. *)
Theorem address_bar_form_data_key_wins
    (imports : Imports) (args : UpdateArgs) (w : Window) (key : jsval) :
  isReservedParam imports (URL_PARAMS_formDataKey_name imports) = true ->
  URL_PARAMS_formDataKey_name imports <> URL_PARAMS_sliceId_name imports ->
  URL_PARAMS_formDataKey_name imports <> URL_PARAMS_datasourceId_name imports ->
  URL_PARAMS_formDataKey_name imports <> URL_PARAMS_datasourceType_name imports ->
  exploreUrlSearch imports args w key !! URL_PARAMS_formDataKey_name imports
  = Some (default key (location_search w !! URL_PARAMS_formDataKey_name imports)).
Proof.
  intros Hres Hsid Hdid Hdty.
  unfold exploreUrlSearch, additionalParamOf.
  rewrite lookup_union, copyUrlParams_lookup, Hres, lookup_singleton_eq.
  assert (Hid : identityParams imports args w !! URL_PARAMS_formDataKey_name imports
                = location_search w !! URL_PARAMS_formDataKey_name imports).
  { unfold identityParams. destruct (truthy (slice_id (formData args))).
    - apply lookup_insert_ne. congruence.
    - rewrite !lookup_insert_ne by congruence. reflexivity. }
  rewrite Hid.
  destruct (location_search w !! URL_PARAMS_formDataKey_name imports); reflexivity.
Qed.

Lemma address_bar_form_data_key_wins_example :
  isReservedParam sampleImports (URL_PARAMS_formDataKey_name sampleImports) = true
  /\ location_search sampleWindow !! "form_data_key" = Some (VStr "oldKey")
  /\ exploreUrlSearch sampleImports (sampleArgs true) sampleWindow (VStr "newKey")
       !! URL_PARAMS_formDataKey_name sampleImports
     = Some (VStr "oldKey").
Proof.
  split; [reflexivity|]. split; [reflexivity|].
  exact (address_bar_form_data_key_wins sampleImports (sampleArgs true)
           sampleWindow (VStr "newKey") eq_refl
           ltac:(discriminate) ltac:(discriminate) ltac:(discriminate)).
Defined.

(** X9.  Parameters of the address bar are carried over: a parameter of the
    address bar whose name is not one of the three identity names, and which
    [url_params] does not override (its name is reserved, or [url_params]
    has no such key), is in the parameter set built for the URL with the
    value it has in the address bar. *)
Theorem address_bar_params_carried_over
    (imports : Imports) (args : UpdateArgs) (w : Window) (key : jsval)
    (name : string) (v : jsval) :
  location_search w !! name = Some v ->
  name <> URL_PARAMS_sliceId_name imports ->
  name <> URL_PARAMS_datasourceId_name imports ->
  name <> URL_PARAMS_datasourceType_name imports ->
  isReservedParam imports name = true
  \/ default ∅ (url_params (formData args)) !! name = None ->
  exploreUrlSearch imports args w key !! name = Some v.
Proof.
  intros Hbar Hsid Hdid Hdty Hkept.
  unfold exploreUrlSearch, additionalParamOf. apply lookup_union_Some_l.
  rewrite copyUrlParams_lookup.
  assert (Hid : identityParams imports args w !! name = Some v).
  { unfold identityParams. destruct (truthy (slice_id (formData args))).
    - rewrite lookup_insert_ne by congruence. exact Hbar.
    - rewrite !lookup_insert_ne by congruence. exact Hbar. }
  destruct (isReservedParam imports name); [exact Hid|].
  destruct Hkept as [Hres|Hnone]; [discriminate|].
  rewrite Hnone. exact Hid.
Qed.

Lemma address_bar_params_carried_over_example :
  location_search sampleWindow !! "foo" = Some (VStr "fromAddressBar")
  /\ default ∅ (url_params (formData (queryArgs "day"))) !! "foo" = None
  /\ exploreUrlSearch sampleImports (queryArgs "day") sampleWindow (VStr "oldKey")
       !! "foo"
     = Some (VStr "fromAddressBar").
Proof.
  split; [reflexivity|]. split; [reflexivity|].
  exact (address_bar_params_carried_over sampleImports (queryArgs "day")
           sampleWindow (VStr "oldKey") "foo" (VStr "fromAddressBar") eq_refl
           ltac:(discriminate) ltac:(discriminate) ltac:(discriminate)
           (or_intror eq_refl)).
Defined.

(** ** Further properties of the event bridge *)

Lemma applyListenerOp_unused (reg : Registry) (op : ListenerOp) :
  unusedSourcesEmpty reg -> sparesUnusedSources op ->
  unusedSourcesEmpty (applyListenerOp reg op).
Proof.
  unfold unusedSourcesEmpty. intros [Hwk Hdp] Hop.
  destruct op as [target type handler|target type handler].
  - cbn [applyListenerOp].
    destruct (existsb (Nat.eqb handler) (reg target type)); [auto|].
    destruct target, type; cbn in Hop; try contradiction;
      unfold setListeners; cbn; auto.
  - cbn [applyListenerOp].
    destruct target, type; unfold setListeners; cbn;
      rewrite ?Hwk, ?Hdp; cbn; auto.
Qed.

Lemma applyListenerOps_unused (ops : list ListenerOp) :
  forall reg : Registry,
    unusedSourcesEmpty reg -> Forall sparesUnusedSources ops ->
    Forall unusedSourcesEmpty (applyListenerOps reg ops)
    /\ unusedSourcesEmpty (lastRegistry reg (applyListenerOps reg ops)).
Proof.
  induction ops as [|op rest IH]; intros reg Hreg Hops.
  - split; [constructor|exact Hreg].
  - apply Forall_cons in Hops as [Hop Hops].
    pose proof (applyListenerOp_unused reg op Hreg Hop) as Hreg'.
    destruct (IH _ Hreg' Hops) as [Hall Hlast].
    cbn [applyListenerOps]. split; [constructor; assumption|].
    unfold lastRegistry in *. rewrite last_cons_default. exact Hlast.
Qed.

Lemma bridgeOps_spare_unused (st : BridgeState) (hp hk : Handler) :
  Forall sparesUnusedSources (bridgeOps st hp hk).
Proof.
  unfold bridgeOps, listenerCleanup, listenerEffect.
  repeat apply Forall_app_2.
  - destruct (listenerEffectRuns _ _); [|constructor].
    destruct (listenerEffectDeps _) as [[a p]|]; repeat constructor.
  - destruct (listenerEffectRuns _ _); [|constructor].
    destruct (listenerEffectDeps _) as [[a p]|]; repeat constructor.
  - destruct (listenerEffectRuns _ _); [|constructor].
    destruct (previousHandler _ _); repeat constructor.
  - destruct (listenerEffectRuns _ _); [|constructor].
    destruct (previousHandler _ _); repeat constructor.
Qed.

Lemma bridgePasses_unused (renders : list (Handler * Handler)) :
  forall st : BridgeState,
    unusedSourcesEmpty (registry st) ->
    Forall (fun pass =>
              Forall unusedSourcesEmpty (snd (fst pass)) /\
              unusedSourcesEmpty (snd pass))
           (bridgePasses st renders).
Proof.
  induction renders as [|[hp hk] rest IH]; intros st Hreg; [constructor|].
  cbn [bridgePasses bridgePass].
  destruct (applyListenerOps_unused (bridgeOps st hp hk) (registry st) Hreg
              (bridgeOps_spare_unused st hp hk)) as [Hall Hlast].
  constructor.
  - cbn [fst snd registry]. split; assumption.
  - apply IH. cbn [registry]. exact Hlast.
Qed.

(** X10.  The bridge attaches [popstate] handlers to [window] only and
    [keydown] handlers to [document] only: at every point of every run
    nothing listens to [keydown] on [window] or to [popstate] on [document].
    The statement of the [keydown] effect that removes the previous handler
    from [window] therefore never removes anything. *)
Theorem bridge_never_uses_other_sources (renders : list (Handler * Handler)) :
  Forall (fun pass =>
            Forall unusedSourcesEmpty (snd (fst pass)) /\
            unusedSourcesEmpty (snd pass))
         (bridgePasses bridgeInit renders).
Proof. apply bridgePasses_unused. split; reflexivity. Qed.

Lemma bridgeStateAfter_app (before rest : list (Handler * Handler)) :
  forall st : BridgeState,
    bridgeStateAfter st (before ++ rest)
    = bridgeStateAfter (bridgeStateAfter st before) rest.
Proof.
  induction before as [|handlers before' IH]; intros st; [reflexivity|].
  cbn [app bridgeStateAfter]. apply IH.
Qed.

(** X11.  The listener effects run on two passes after a change of handler
    and then rest.  On a pass whose handlers are those of the two passes
    before it no listener is removed or added; on the pass right after the
    mount pass, however, both effects run once more and re-register the same
    handlers, and so does each effect on the pass right after a pass that
    brought it a new handler, because the value of [usePrevious] is among
    the dependencies. *)
Theorem bridge_settles_on_third_pass
    (before : list (Handler * Handler)) (handlers : Handler * Handler) :
  bridgeOps (bridgeStateAfter bridgeInit (before ++ [handlers; handlers]))
            (fst handlers) (snd handlers)
  = []
  /\
  bridgeOps (bridgeStateAfter bridgeInit [handlers]) (fst handlers) (snd handlers)
  = [RemoveEventListener TWindow Popstate (fst handlers);
     RemoveEventListener TDocument Keydown (snd handlers);
     RemoveEventListener TWindow Popstate (fst handlers);
     AddEventListener TWindow Popstate (fst handlers);
     RemoveEventListener TWindow Keydown (snd handlers);
     AddEventListener TDocument Keydown (snd handlers)]
  /\
  (forall earlier : Handler * Handler,
      (fst earlier <> fst handlers ->
       listenerEffectRuns
         (popstateHooks
            (bridgeStateAfter bridgeInit (before ++ [earlier; handlers])))
         (fst handlers) = true)
      /\
      (snd earlier <> snd handlers ->
       listenerEffectRuns
         (keydownHooks
            (bridgeStateAfter bridgeInit (before ++ [earlier; handlers])))
         (snd handlers) = true)).
Proof.
  destruct handlers as [hp hk]. split; [|split].
  - rewrite bridgeStateAfter_app.
    destruct (bridgeStateAfter bridgeInit before) as [[pprev pdeps] [kprev kdeps] reg].
    unfold bridgeOps, listenerCleanup, listenerEffect, listenerEffectRuns,
      previousHandler, usePrevious, depsChanged.
    cbn [bridgeStateAfter bridgePass fst snd popstateHooks keydownHooks
         listenerHooksAfter previousHandler usePrevious previousHandlerRef
         listenerEffectDeps].
    rewrite !bool_decide_eq_true_2 by reflexivity. reflexivity.
  - unfold bridgeOps, listenerCleanup, listenerEffect, listenerEffectRuns,
      previousHandler, usePrevious, depsChanged.
    cbn [bridgeStateAfter bridgePass bridgeInit listenerHooksInit fst snd
         popstateHooks keydownHooks listenerHooksAfter previousHandler
         usePrevious previousHandlerRef listenerEffectDeps].
    rewrite !bool_decide_eq_false_2 by discriminate. reflexivity.
  - intros [qp qk]. rewrite bridgeStateAfter_app.
    destruct (bridgeStateAfter bridgeInit before) as [[pprev pdeps] [kprev kdeps] reg].
    unfold listenerEffectRuns, previousHandler, usePrevious, depsChanged.
    cbn [bridgeStateAfter bridgePass fst snd popstateHooks keydownHooks
         listenerHooksAfter previousHandler usePrevious previousHandlerRef
         listenerEffectDeps].
    split; intros Hne; rewrite bool_decide_eq_false_2; try reflexivity;
      intros Heq; injection Heq as Heq; congruence.
Qed.

(** ** Properties of the [errorMessage] memo *)

Lemma uniqueValues_from (xs : list string) :
  forall seen : list string,
    NoDup seen ->
    NoDup (fold_left
             (fun seen x => if existsb (String.eqb x) seen then seen else seen ++ [x])
             xs seen)
    /\ forall x : string,
         In x (fold_left
                 (fun seen x => if existsb (String.eqb x) seen then seen else seen ++ [x])
                 xs seen)
         <-> In x seen \/ In x xs.
Proof.
  induction xs as [|y rest IH]; intros seen Hseen.
  - split; [exact Hseen|]. intros x. cbn. tauto.
  - cbn [fold_left]. destruct (existsb (String.eqb y) seen) eqn:Hy.
    + destruct (IH seen Hseen) as [Hnodup Hin]. split; [exact Hnodup|].
      intros x. rewrite Hin. cbn [In].
      apply existsb_exists in Hy as (z & Hz & Heq).
      apply String.eqb_eq in Heq. subst z.
      split; [tauto|]. intros [H|[<-|H]]; auto.
    + assert (Hfresh : ~ In y seen).
      { intros Hin. apply not_true_iff_false in Hy. apply Hy.
        apply existsb_exists. exists y. split; [exact Hin|apply String.eqb_refl]. }
      assert (Hseen' : NoDup (seen ++ [y])).
      { apply NoDup_app. split; [exact Hseen|]. split; [|apply NoDup_singleton].
        intros z Hz Hzy. apply list_elem_of_singleton in Hzy. subst z.
        apply Hfresh, list_elem_of_In, Hz. }
      destruct (IH _ Hseen') as [Hnodup Hin]. split; [exact Hnodup|].
      intros x. rewrite Hin, in_app_iff. cbn [In]. tauto.
Qed.

Lemma uniqueValues_spec (xs : list string) :
  NoDup (uniqueValues xs) /\ forall x, In x (uniqueValues xs) <-> In x xs.
Proof.
  destruct (uniqueValues_from xs [] (NoDup_nil_2)) as [Hnodup Hin].
  split; [exact Hnodup|]. intros x. unfold uniqueValues. rewrite Hin.
  cbn [In]. tauto.
Qed.

Lemma hasMessage_hasValidationErrors (message : string) (control : LabelledControl) :
  hasMessage message control = true -> hasValidationErrors (plain control) = true.
Proof.
  unfold hasMessage, hasValidationErrors.
  destruct (validationErrors (plain control)) as [[|e errors]|]; try discriminate.
  reflexivity.
Qed.

(** X12.  The memo yields [null] exactly when no control has a validation
    error, and that is exactly when the mount effect issues the automatic
    query; when some control has one it yields an element with at least one
    line: the variable is never left [undefined]. *)
Theorem errorMessage_null_iff_no_errors
    (controls : gmap string LabelledControl) (chartId : jsval) :
  (errorMessage controls = ErrorNull <->
   forall (name : string) (control : LabelledControl),
     controls !! name = Some control ->
     hasValidationErrors (plain control) = false)
  /\
  (errorMessage controls = ErrorNull <->
   mountQueryEffect (plain <$> controls) chartId = [TriggerQuery true chartId])
  /\
  (errorMessage controls = ErrorNull \/
   exists (line : ErrorLine) (lines : list ErrorLine),
     errorMessage controls = ErrorElement (line :: lines)).
Proof.
  set (withErrors := List.filter (fun control => hasValidationErrors (plain control))
                                 (Object_values controls)).
  assert (Hshape : (withErrors = [] /\ errorMessage controls = ErrorNull) \/
                   (withErrors <> [] /\
                    exists line lines, errorMessage controls = ErrorElement (line :: lines))).
  { unfold errorMessage. fold withErrors.
    destruct withErrors as [|c rest] eqn:Hwith; [left; auto|].
    right. split; [discriminate|]. cbn [length Nat.eqb].
    assert (Hc : hasValidationErrors (plain c) = true).
    { assert (Hin : In c withErrors) by (rewrite Hwith; left; reflexivity).
      apply filter_In in Hin as [_ Hc]. exact Hc. }
    unfold hasValidationErrors in Hc.
    destruct (validationErrors (plain c)) as [[|e errors]|] eqn:Herrs;
      try discriminate.
    set (unique := uniqueValues _).
    assert (Hin : In e unique).
    { apply uniqueValues_spec. cbn [List.map concat]. rewrite Herrs.
      cbn. left. reflexivity. }
    destruct unique as [|m ms]; [contradiction|].
    cbn [List.map length Nat.ltb Nat.leb]. eauto. }
  assert (Hnone : withErrors = [] <->
                  forall (name : string) (control : LabelledControl),
                    controls !! name = Some control ->
                    hasValidationErrors (plain control) = false).
  { split.
    - intros Hempty name control Hlookup.
      apply not_true_is_false. intros Herr.
      assert (Hin : In control withErrors).
      { apply filter_In. split; [|exact Herr].
        apply Object_values_In. eauto. }
      rewrite Hempty in Hin. contradiction.
    - intros Hclean. apply filter_none. intros control Hin.
      apply Object_values_In in Hin as [name Hlookup]. eauto. }
  assert (Hnull : errorMessage controls = ErrorNull <-> withErrors = []).
  { destruct Hshape as [[Hempty Hnull]|[Hsome (line & lines & Helem)]].
    - tauto.
    - rewrite Helem. split; [discriminate|contradiction]. }
  split; [rewrite Hnull; exact Hnone|]. split.
  - rewrite Hnull, Hnone. unfold mountQueryEffect. split.
    + intros Hclean.
      replace (existsb hasValidationErrors (Object_values (plain <$> controls)))
        with false; [reflexivity|].
      symmetry. apply not_true_is_false. intros Hex.
      apply existsb_exists in Hex as (c & Hin & Herr).
      apply Object_values_In in Hin as [name Hlookup].
      rewrite lookup_fmap in Hlookup.
      destruct (controls !! name) as [lc|] eqn:Hlc; [|discriminate].
      injection Hlookup as <-. rewrite (Hclean name lc Hlc) in Herr. discriminate.
    + intros Hquery name control Hlookup. apply not_true_is_false. intros Herr.
      replace (existsb hasValidationErrors (Object_values (plain <$> controls)))
        with true in Hquery; [discriminate|].
      symmetry. apply existsb_exists. exists (plain control). split; [|exact Herr].
      apply Object_values_In. exists name. rewrite lookup_fmap, Hlookup. reflexivity.
  - destruct Hshape as [[_ Hnull']|[_ Helem]]; [left|right]; assumption.
Qed.

Lemma in_concat_iff {A : Type} (ls : list (list A)) (x : A) :
  In x (concat ls) <-> exists l, In l ls /\ In x l.
Proof.
  induction ls as [|l rest IH]; cbn [concat In].
  - split; [contradiction|]. intros (l & [] & _).
  - rewrite in_app_iff, IH. split.
    + intros [Hx|(l' & Hl' & Hx)]; eauto.
    + intros (l' & [<-|Hl'] & Hx); eauto.
Qed.

Lemma hasMessage_In (message : string) (control : LabelledControl) :
  hasMessage message control = true <->
  In message (default [] (validationErrors (plain control))).
Proof.
  unfold hasMessage. destruct (validationErrors (plain control)) as [errors|];
    cbn [default]; [|split; [discriminate|contradiction]].
  rewrite existsb_exists. split.
  - intros (e & Hin & Heq). apply String.eqb_eq in Heq. subst e. exact Hin.
  - intros Hin. exists message. split; [exact Hin|apply String.eqb_refl].
Qed.

(** X13.  When the memo yields an element: its lines carry pairwise
    different messages; a message has a line exactly when some control has
    it among its validation errors; and each line lists at least one label,
    uses the plural wording exactly when it lists more than one, and lists
    the labels of exactly the controls that have its message. *)
Theorem errorMessage_lines_are_the_distinct_errors
    (controls : gmap string LabelledControl) (lines : list ErrorLine) :
  errorMessage controls = ErrorElement lines ->
  NoDup (List.map line_message lines)
  /\
  (forall message : string,
      In message (List.map line_message lines) <->
      exists (name : string) (control : LabelledControl),
        controls !! name = Some control /\ hasMessage message control = true)
  /\
  Forall (fun line =>
            line_labels line <> [] /\
            line_plural line = (1 <? length (line_labels line))%nat /\
            forall l : string,
              In l (line_labels line) <->
              exists (name : string) (control : LabelledControl),
                controls !! name = Some control /\
                hasMessage (line_message line) control = true /\
                label control = l)
         lines.
Proof.
  unfold errorMessage.
  set (withErrors := List.filter (fun control => hasValidationErrors (plain control))
                                 (Object_values controls)).
  set (unique := uniqueValues _).
  destruct (length withErrors =? 0)%nat; [discriminate|].
  destruct (0 <? length _)%nat; [|discriminate].
  intros Heq. injection Heq as <-.
  assert (Hwith : forall control : LabelledControl,
             In control withErrors <->
             (exists name, controls !! name = Some control) /\
             hasValidationErrors (plain control) = true).
  { intros control. unfold withErrors. rewrite filter_In, Object_values_In.
    reflexivity. }
  assert (Hmatching : forall (message : string) (control : LabelledControl),
             In control (List.filter (hasMessage message) withErrors) <->
             (exists name, controls !! name = Some control) /\
             hasMessage message control = true).
  { intros message control. rewrite filter_In, Hwith. split.
    - intros [[Hname _] Hmsg]. auto.
    - intros [Hname Hmsg]. split; [split|]; auto.
      apply (hasMessage_hasValidationErrors message). exact Hmsg. }
  assert (Hunique : forall message : string,
             In message unique <->
             exists (name : string) (control : LabelledControl),
               controls !! name = Some control /\ hasMessage message control = true).
  { intros message. unfold unique.
    rewrite (proj2 (uniqueValues_spec _)), in_concat_iff. split.
    - intros (errors & Herrors & Hin).
      apply in_map_iff in Herrors as (control & <- & Hcontrol).
      apply Hwith in Hcontrol as [[name Hname] _].
      exists name, control. split; [exact Hname|]. apply hasMessage_In, Hin.
    - intros (name & control & Hname & Hmsg).
      exists (default [] (validationErrors (plain control))). split.
      + apply in_map_iff. exists control. split; [reflexivity|].
        apply Hwith. split; [eauto|].
        apply (hasMessage_hasValidationErrors message), Hmsg.
      + apply hasMessage_In, Hmsg. }
  assert (Hmessages : forall l : list string,
             List.map line_message
               (List.map
                  (fun message =>
                     mkErrorLine
                       (1 <? length (List.map label
                                       (List.filter (hasMessage message) withErrors)))%nat
                       (List.map label (List.filter (hasMessage message) withErrors))
                       message) l)
             = l).
  { intros l. induction l as [|m ms IH]; [reflexivity|].
    cbn [List.map line_message]. rewrite IH. reflexivity. }
  rewrite Hmessages. split; [apply uniqueValues_spec|]. split; [exact Hunique|].
  apply List.Forall_forall. intros line Hline.
  apply in_map_iff in Hline as (message & <- & Hmessage).
  cbn [line_labels line_plural line_message].
  apply Hunique in Hmessage as (name & control & Hname & Hmsg).
  split; [|split; [reflexivity|]].
  - assert (Hin : In control (List.filter (hasMessage message) withErrors))
      by (apply Hmatching; eauto).
    intros Hempty. apply (in_map label) in Hin. rewrite Hempty in Hin.
    contradiction.
  - intros l. rewrite in_map_iff. split.
    + intros (c & <- & Hc). apply Hmatching in Hc as [[n Hn] Hm].
      exists n, c. auto.
    + intros (n & c & Hn & Hm & <-). exists c. split; [reflexivity|].
      apply Hmatching. eauto.
Qed.

Lemma errorMessage_lines_are_the_distinct_errors_example :
  errorMessage sampleLabelledControls
  = ErrorElement [mkErrorLine true ["Dimensions"; "Metrics"] "cannot be empty";
                  mkErrorLine false ["Dimensions"] "too long"]
  /\ NoDup ["cannot be empty"; "too long"].
Proof.
  assert (Hlines : errorMessage sampleLabelledControls
                   = ErrorElement
                       [mkErrorLine true ["Dimensions"; "Metrics"] "cannot be empty";
                        mkErrorLine false ["Dimensions"] "too long"])
    by (vm_compute; reflexivity).
  split; [exact Hlines|].
  exact (proj1 (errorMessage_lines_are_the_distinct_errors
                  sampleLabelledControls _ Hlines)).
Defined.

(** ** Properties of the callbacks *)

(** X14.  What the persist routine writes into the session history is what
    a later [popstate] restores: after a run that the store answered and
    that found the explore route still active, [handlePopstate] on the
    resulting window replaces the controls by the persisted query definition
    and re-issues the query with it, provided that definition has at least
    one key; on a window whose current entry has none, or that has no
    entry, [handlePopstate] does nothing. *)
Theorem popstate_restores_what_was_persisted
    (imports : Imports) (props : Props) (args : UpdateArgs) (w : Window)
    (result : jsval) (inFlight : Window -> Window) :
  (routeStillActive imports (inFlight w) = true ->
   formDataKeys (formData args) <> [] ->
   handlePopstate props
     (window_after (updateHistoryBody imports args w (Resolved result) inFlight))
   = [SetExploreControls (formData args);
      PostChartFormData (formData args) (props_force props) (props_timeout props)
                        (props_chart_id props)])
  /\
  (forall w' : Window,
      history_entries w' = [] \/
      (exists entry rest, history_entries w' = entry :: rest /\
                          formDataKeys (entry_state entry) = []) ->
      handlePopstate props w' = []).
Proof.
  split.
  - intros Hactive Hkeys.
    unfold updateHistoryBody, stateModifierOf. rewrite Hactive.
    unfold handlePopstate, history_state.
    destruct (isReplace args); cbn [window_after applyStateModifier replaceState
      pushState history_entries entry_state];
      (destruct (formDataKeys (formData args)) as [|k ks]; [contradiction|]);
      reflexivity.
  - intros w' [Hnone|(entry & rest & Hentries & Hkeys)];
      unfold handlePopstate, history_state.
    + rewrite Hnone. reflexivity.
    + rewrite Hentries, Hkeys. reflexivity.
Qed.

Lemma popstate_restores_what_was_persisted_example :
  routeStillActive sampleImports (stayOnPage sampleWindow) = true
  /\ formDataKeys (formData (sampleArgs false)) <> []
  /\ handlePopstate (sampleProps VNull)
       (window_after (updateHistoryBody sampleImports (sampleArgs false)
                        sampleWindow (Resolved VUndefined) stayOnPage))
     = [SetExploreControls sampleFormData;
        PostChartFormData sampleFormData false (VNum 60) (VNum 42)].
Proof.
  split; [reflexivity|]. split; [discriminate|].
  exact (proj1 (popstate_restores_what_was_persisted sampleImports
                  (sampleProps VNull) (sampleArgs false) sampleWindow
                  VUndefined stayOnPage)
               eq_refl ltac:(discriminate)).
Defined.

Lemma updateHistory_same_instant (now : Z) (first : UpdateArgs)
                                 (rest : list UpdateArgs) :
  snd (updateHistory (List.map (fun args => (now, args)) (first :: rest)))
  = [(now + 1000, List.last rest first)].
Proof.
  unfold updateHistory. cbn [List.map].
  rewrite (debounceSession_burst 1000 ltac:(lia)).
  - cbn [snd fst]. f_equal.
    assert (Hlast : forall (l : list UpdateArgs) (a : UpdateArgs),
               List.last (List.map (fun args => (now, args)) l) (now, a)
               = (now, List.last l a)).
    { induction l as [|x l' IH]; intros a; [reflexivity|].
      cbn [List.map]. rewrite !last_cons_default. apply IH. }
    rewrite Hlast. reflexivity.
  - cbn [fst]. induction rest as [|x rest' IH]; [reflexivity|].
    cbn [List.map withinWindow]. rewrite IH.
    replace (now <=? now) with true by (symmetry; apply Z.leb_le; lia).
    replace (now - now <? 1000) with true by (symmetry; apply Z.ltb_lt; lia).
    reflexivity.
Qed.

(** X15.  Saving a chart persists once, as a replace: the save effect runs
    [onQuery], which schedules a push, and then schedules a replace; both
    calls reach the debounced [updateHistory] in the same turn, so the only
    run of the persist routine is the replace, with the current query
    definition. *)
Theorem save_persists_once_as_replace (props : Props) (tabId : jsval) (now : Z) :
  props_saveAction props = VStr "saveas"
  \/ props_saveAction props = VStr "overwrite" ->
  historyCalls (saveActionEffect props tabId)
  = [addHistory props tabId false VUndefined;
     addHistory props tabId true VUndefined]
  /\ snd (updateHistory (callsAt now (saveActionEffect props tabId)))
     = [(now + 1000, addHistory props tabId true VUndefined)].
Proof.
  intros Hsave.
  assert (Hcalls : historyCalls (saveActionEffect props tabId)
                   = [addHistory props tabId false VUndefined;
                      addHistory props tabId true VUndefined]).
  { unfold saveActionEffect. destruct Hsave as [-> | ->]; reflexivity. }
  split; [exact Hcalls|].
  unfold callsAt. rewrite Hcalls. apply updateHistory_same_instant.
Qed.

Lemma save_persists_once_as_replace_example :
  (props_saveAction (sampleProps (VStr "overwrite")) = VStr "saveas"
   \/ props_saveAction (sampleProps (VStr "overwrite")) = VStr "overwrite")
  /\ snd (updateHistory
            (callsAt 500 (saveActionEffect (sampleProps (VStr "overwrite"))
                                           (VStr "tab-1"))))
     = [(1500, addHistory (sampleProps (VStr "overwrite")) (VStr "tab-1")
                          true VUndefined)].
Proof.
  split; [right; reflexivity|].
  exact (proj2 (save_persists_once_as_replace (sampleProps (VStr "overwrite"))
                  (VStr "tab-1") 500 (or_intror eq_refl))).
Defined.

(** X16.  Which persist a callback causes.  [onQuery], also when reached by
    Ctrl+Enter or Cmd+Enter, causes one push of the current query
    definition; the effect on [ownState] calls [onQuery] and [reRenderChart]
    and still causes one push only; a key pressed without Ctrl or Cmd, and
    Ctrl+S or Cmd+S, cause none. *)
Theorem callbacks_persist_at_most_once
    (props : Props) (tabId : jsval) (now : Z) (event : KeyEvent) :
  snd (updateHistory (callsAt now (onQuery props tabId)))
  = [(now + 1000, addHistory props tabId false VUndefined)]
  /\
  (props_ownState props <> VUndefined ->
   snd (updateHistory (callsAt now (ownStateEffect props tabId now)))
   = [(now + 1000, addHistory props tabId false VUndefined)])
  /\
  (ctrlKey event || metaKey event = true ->
   String.eqb (key event) "Enter" || (keyCode event =? 13) = true ->
   handleKeydown props tabId event = onQuery props tabId)
  /\
  (ctrlKey event || metaKey event = false
   \/ String.eqb (key event) "Enter" || (keyCode event =? 13) = false ->
   historyCalls (handleKeydown props tabId event) = []).
Proof.
  split; [|split; [|split]].
  - apply (updateHistory_same_instant now _ []).
  - intros Hown. unfold ownStateEffect.
    destruct (props_ownState props); try contradiction;
      apply (updateHistory_same_instant now _ [_]).
  - intros Hmod Henter. unfold handleKeydown. rewrite Hmod, Henter. reflexivity.
  - unfold handleKeydown. intros [Hmod|Henter].
    + rewrite Hmod. reflexivity.
    + rewrite Henter. destruct (ctrlKey event || metaKey event); [|reflexivity].
      destruct (String.eqb (key event) "s" || (keyCode event =? 83));
        [|reflexivity].
      destruct (props_slice props); reflexivity.
Qed.

Lemma pick_lookup {A : Type} (object : gmap string A) (paths : list string)
                  (name : string) :
  pick object paths !! name
  = if decide (name ∈ paths) then object !! name else None.
Proof.
  unfold pick. destruct (decide (name ∈ paths)) as [Hin|Hout].
  - destruct (object !! name) as [x|] eqn:Hx.
    + apply map_lookup_filter_Some. split; [exact Hx|exact Hin].
    + apply map_lookup_filter_None. left. exact Hx.
  - apply map_lookup_filter_None. right. intros x _. exact Hout.
Qed.

(** X17.  The re-render that follows a change of display controls rewrites
    the latest query definition at those controls only: in the query
    definition given to [updateQueryFormData], each changed display control
    has its current value, and every other key, in particular the key of any
    control that is not a [renderTrigger] control, is as it is in
    [latestQueryFormData]. *)
Theorem display_rerender_keeps_query_keys
    (props : Props) (tabId : jsval) (now : Z) (previous : Snapshot) :
  exists newQueryFormData : gmap string jsval,
    reRenderChart props tabId now
      (Some (displayControlsChanged previous (props_controls_now props)))
    = [UpdateQueryFormData newQueryFormData (props_chart_id props);
       RenderTriggered now (props_chart_id props);
       UpdateHistory (addHistory props tabId false VUndefined)]
    /\
    (forall (name : string) (control : Control),
        In name (displayControlsChanged previous (props_controls_now props)) ->
        props_controls_now props !! name = Some control ->
        newQueryFormData !! name = Some (value control))
    /\
    (forall name : string,
        ~ In name (displayControlsChanged previous (props_controls_now props)) ->
        newQueryFormData !! name = props_latestQueryFormData props !! name)
    /\
    (forall (name : string) (control : Control),
        props_controls_now props !! name = Some control ->
        renderTrigger control = false ->
        newQueryFormData !! name = props_latestQueryFormData props !! name).
Proof.
  eexists. split; [reflexivity|].
  assert (Hout : forall name : string,
             ~ In name (displayControlsChanged previous (props_controls_now props)) ->
             (getFormDataFromControls
                (pick (props_controls_now props)
                      (displayControlsChanged previous (props_controls_now props)))
                ∪ props_latestQueryFormData props) !! name
             = props_latestQueryFormData props !! name).
  { intros name Hnot. unfold getFormDataFromControls.
    rewrite lookup_union, lookup_fmap, pick_lookup.
    destruct (decide _) as [Hin|_]; [|cbn; destruct (_ !! name); reflexivity].
    exfalso. apply Hnot, list_elem_of_In, Hin. }
  split; [|split; [exact Hout|]].
  - intros name control Hin Hcontrol. unfold getFormDataFromControls.
    apply lookup_union_Some_l. rewrite lookup_fmap, pick_lookup.
    destruct (decide _) as [_|Hnot]; [rewrite Hcontrol; reflexivity|].
    exfalso. apply Hnot, list_elem_of_In, Hin.
  - intros name control Hcontrol Hplain. apply Hout. intros Hin.
    unfold displayControlsChanged in Hin. apply filter_In in Hin as [_ Htrigger].
    rewrite Hcontrol, Hplain in Htrigger. discriminate.
Qed.

(** ** Properties of the form data derived in [mapStateToProps] *)

Lemma omit_lookup {A : Type} (object : gmap string A) (paths : list string)
                  (name : string) :
  omit object paths !! name
  = if decide (name ∈ paths) then None else object !! name.
Proof.
  unfold omit. destruct (decide (name ∈ paths)) as [Hin|Hout].
  - apply map_lookup_filter_None. right. intros x _ Hnot. exact (Hnot Hin).
  - destruct (object !! name) as [x|] eqn:Hx.
    + apply map_lookup_filter_Some. split; [exact Hx|exact Hout].
    + apply map_lookup_filter_None. left. exact Hx.
Qed.

Lemma Object_keys_elem_of {A : Type} (o : gmap string A) (name : string) :
  name ∈ Object_keys o <-> is_Some (o !! name).
Proof. rewrite list_elem_of_In. apply Object_keys_In. Qed.

(** X18.  The form data derived from the controls has, for every control,
    the control's value under the control's name, except for the hidden
    fields: without a query mode every hidden field is left out; with a
    query mode set, a hidden field is left out unless it is one of the
    requisites of the query mode, which are kept. *)
Theorem controlsBasedFormData_omits_hidden_fields
    (QUERY_MODE_REQUISITES : gset string) (controls : Snapshot)
    (hiddenFormData : option (gmap string jsval)) (name : string) :
  controlsBasedFormData QUERY_MODE_REQUISITES controls hiddenFormData !! name
  = if bool_decide (is_Some (default ∅ hiddenFormData !! name))
       && negb (hasQueryMode controls && bool_decide (name ∈ QUERY_MODE_REQUISITES))
    then None
    else value <$> controls !! name.
Proof.
  unfold controlsBasedFormData, fieldsToOmit, getFormDataFromControls.
  rewrite omit_lookup, lookup_fmap.
  destruct (hasQueryMode controls); cbn [andb negb].
  - unfold retainQueryModeRequirements.
    destruct (decide _) as [Hin|Hout].
    + apply list_elem_of_In, filter_In in Hin as [Hkey Hreq].
      apply Object_keys_In in Hkey. apply negb_true_iff in Hreq.
      rewrite (bool_decide_eq_true_2 _ Hkey), Hreq. reflexivity.
    + destruct (bool_decide_reflect (is_Some (default ∅ hiddenFormData !! name)))
        as [Hkey|Hkey]; [|reflexivity].
      destruct (bool_decide_reflect (name ∈ QUERY_MODE_REQUISITES))
        as [Hreq|Hreq]; [reflexivity|].
      exfalso. apply Hout, list_elem_of_In, filter_In. split.
      * apply Object_keys_In, Hkey.
      * apply negb_true_iff, bool_decide_eq_false_2, Hreq.
  - rewrite andb_true_r.
    destruct (decide _) as [Hin|Hout].
    + apply Object_keys_elem_of in Hin.
      rewrite (bool_decide_eq_true_2 _ Hin). reflexivity.
    + rewrite bool_decide_eq_false_2; [reflexivity|].
      intros Hkey. apply Hout, Object_keys_elem_of, Hkey.
Qed.

(** X19.  [patchBigNumberTotalFormData] only ever fills in a missing
    subtitle: it changes no key other than [subtitle]; it returns its
    argument when that already has a truthy subtitle; a big-number chart
    whose slice has a truthy legacy [subheader] comes out with a truthy
    subtitle; and patching twice is patching once. *)
Theorem patchBigNumberTotalFormData_fills_subtitle_once
    (form_data : gmap string jsval) (slice : option Slice) :
  (forall name : string,
      name <> "subtitle" ->
      patchBigNumberTotalFormData form_data slice !! name = form_data !! name)
  /\
  (truthy (getProp form_data "subtitle") = true ->
   patchBigNumberTotalFormData form_data slice = form_data)
  /\
  (isString "big_number_total" (getProp form_data "viz_type") = true ->
   truthy (sliceSubheader slice) = true ->
   truthy (getProp (patchBigNumberTotalFormData form_data slice) "subtitle") = true)
  /\
  patchBigNumberTotalFormData (patchBigNumberTotalFormData form_data slice) slice
  = patchBigNumberTotalFormData form_data slice.
Proof.
  split; [|split; [|split]].
  - intros name Hname. unfold patchBigNumberTotalFormData.
    destruct (_ && _ && _); [|reflexivity].
    apply lookup_insert_ne. congruence.
  - intros Hsub. unfold patchBigNumberTotalFormData. rewrite Hsub.
    rewrite andb_false_r. reflexivity.
  - intros Hviz Hsubheader. unfold patchBigNumberTotalFormData.
    rewrite Hviz, Hsubheader.
    destruct (truthy (getProp form_data "subtitle")) eqn:Hsub; cbn [negb andb].
    + exact Hsub.
    + unfold getProp. rewrite lookup_insert_eq. exact Hsubheader.
  - destruct (isString "big_number_total" (getProp form_data "viz_type")
              && negb (truthy (getProp form_data "subtitle"))
              && truthy (sliceSubheader slice)) eqn:Hpatch.
    + assert (Hfirst : patchBigNumberTotalFormData form_data slice
                       = <["subtitle" := sliceSubheader slice]> form_data)
        by (unfold patchBigNumberTotalFormData; rewrite Hpatch; reflexivity).
      rewrite Hfirst. apply andb_true_iff in Hpatch as [_ Hsubheader].
      unfold patchBigNumberTotalFormData.
      replace (truthy (getProp (<["subtitle":=sliceSubheader slice]> form_data)
                               "subtitle")) with true.
      * rewrite andb_false_r. reflexivity.
      * unfold getProp. rewrite lookup_insert_eq. symmetry. exact Hsubheader.
    + assert (Hfirst : patchBigNumberTotalFormData form_data slice = form_data)
        by (unfold patchBigNumberTotalFormData; rewrite Hpatch; reflexivity).
      rewrite Hfirst. exact Hfirst.
Qed.

Lemma patchBigNumberTotalFormData_example :
  isString "big_number_total" (getProp sampleBigNumber "viz_type") = true
  /\ truthy (sliceSubheader sampleLegacySlice) = true
  /\ truthy (getProp (patchBigNumberTotalFormData sampleBigNumber sampleLegacySlice)
                     "subtitle") = true.
Proof.
  split; [reflexivity|]. split; [reflexivity|].
  exact (proj1 (proj2 (proj2 (patchBigNumberTotalFormData_fills_subtitle_once
                                sampleBigNumber sampleLegacySlice)))
               eq_refl eq_refl).
Defined.

(** With the aggregate query mode set, the hidden requisite [all_columns]
    stays in the form data and the hidden [percent_metrics] does not. *)
Example scenario_query_mode_requisites_kept :
  controlsBasedFormData sampleRequisites sampleModeControls sampleHidden
  = {[ "query_mode" := VStr "aggregate";
       "all_columns" := VArr [VStr "name"];
       "row_limit" := VNum 100 ]}.
Proof. vm_compute. reflexivity. Qed.

(** ** Properties of [CollectionControl] *)

Lemma removeItemFrom_dense (value : list Slot) :
  forall ix i : nat,
    dense value ->
    removeItemFrom ix i value
    = if (i <? ix)%nat then value else delete (i - ix)%nat value.
Proof.
  induction value as [|slot rest IH]; intros ix i Hdense.
  - destruct (i <? ix)%nat; reflexivity.
  - apply Forall_cons in Hdense as [Hslot Hdense].
    cbn [removeItemFrom]. rewrite (IH (S ix) i Hdense).
    replace (isHole slot) with false by (destruct slot; [contradiction| |]; reflexivity).
    destruct (Nat.ltb_spec i ix) as [Hlt|Hge].
    + replace (i =? ix)%nat with false by (symmetry; apply Nat.eqb_neq; lia).
      replace (i <? S ix)%nat with true by (symmetry; apply Nat.ltb_lt; lia).
      reflexivity.
    + destruct (Nat.eqb_spec i ix) as [->|Hne].
      * replace (ix <? S ix)%nat with true by (symmetry; apply Nat.ltb_lt; lia).
        rewrite Nat.sub_diag. reflexivity.
      * replace (i <? S ix)%nat with false by (symmetry; apply Nat.ltb_ge; lia).
        replace (i - ix)%nat with (S (i - S ix)) by lia. reflexivity.
Qed.

(** X20.  [removeItem(i)] on an array without holes gives the array without
    its item at index [i], all other items in their order; an index beyond
    the end removes nothing; and removing, right after [onAdd], the item at
    the old length gives back the array as it was. *)
Theorem collection_removeItem_removes_that_item
    (value : list Slot) (i : nat) (item : gmap string jsval) :
  dense value ->
  collectionRemoveItem value i = take i value ++ drop (S i) value
  /\ ((length value <= i)%nat -> collectionRemoveItem value i = value)
  /\ collectionRemoveItem (collectionOnAdd value item) (length value) = value.
Proof.
  intros Hdense.
  assert (Hdelete : forall (l : list Slot) (n : nat),
             dense l -> collectionRemoveItem l n = delete n l).
  { intros l n Hl. unfold collectionRemoveItem.
    rewrite (removeItemFrom_dense l 0 n Hl). cbn. rewrite Nat.sub_0_r. reflexivity. }
  split; [|split].
  - rewrite (Hdelete _ _ Hdense). apply delete_take_drop.
  - intros Hout. rewrite (Hdelete _ _ Hdense).
    rewrite delete_take_drop, take_ge, drop_ge by lia. apply app_nil_r.
  - unfold collectionOnAdd. rewrite Hdelete.
    + rewrite delete_take_drop, take_app_length.
      rewrite drop_ge by (rewrite length_app; cbn; lia). apply app_nil_r.
    + apply Forall_app. split; [exact Hdense|]. constructor; [discriminate|constructor].
Qed.

Lemma collection_removeItem_example :
  dense sampleCollection
  /\ collectionRemoveItem sampleCollection 1
     = [Item {[ "key" := VStr "a"; "name" := VStr "first" ]};
        Item {[ "key" := VStr "c"; "name" := VStr "third" ]}].
Proof.
  assert (Hdense : dense sampleCollection)
    by (repeat constructor; discriminate).
  split; [exact Hdense|].
  exact (proj1 (collection_removeItem_removes_that_item sampleCollection 1 ∅ Hdense)).
Defined.

(** X21.  [onChange(i, value)] at an index within the array keeps the
    length, leaves every other item as it reads, and merges at index [i]:
    the new item has the value of [value] under each key of [value] and the
    value of the old item under each other key.  At an index beyond the end
    it extends the array up to that index. *)
Theorem collection_onChange_merges_at_index
    (value : list Slot) (i : nat) (change : gmap string jsval) :
  ((i < length value)%nat ->
   length (collectionOnChange value i change) = length value
   /\ (forall j : nat,
          j <> i ->
          collectionOnChange value i change !! j = readSlot <$> value !! j)
   /\ exists merged : gmap string jsval,
        collectionOnChange value i change !! i = Some (Item merged)
        /\ forall name : string,
             merged !! name
             = match change !! name with
               | Some v => Some v
               | None => spreadSlot (value !! i) !! name
               end)
  /\
  ((length value <= i)%nat ->
   length (collectionOnChange value i change) = S i
   /\ collectionOnChange value i change !! i = Some (Item change)).
Proof.
  unfold collectionOnChange. rewrite length_map. split.
  - intros Hin. replace (i <? length value)%nat with true
      by (symmetry; apply Nat.ltb_lt; exact Hin).
    split; [rewrite length_insert, length_map; reflexivity|]. split.
    + intros j Hne. rewrite list_lookup_insert_ne by congruence.
      apply list_lookup_fmap.
    + eexists. split.
      * apply list_lookup_insert_eq. rewrite length_map. exact Hin.
      * intros name. rewrite lookup_union.
        destruct (change !! name), (spreadSlot (value !! i) !! name); reflexivity.
  - intros Hout. replace (i <? length value)%nat with false
      by (symmetry; apply Nat.ltb_ge; exact Hout).
    rewrite (lookup_ge_None_2 value i Hout). cbn [spreadSlot].
    rewrite (right_id_L ∅ (∪)). split.
    + rewrite !length_app, length_map, length_replicate. cbn [length]. lia.
    + rewrite lookup_app_r by (rewrite length_map; lia).
      rewrite lookup_app_r by (rewrite length_map, length_replicate; lia).
      rewrite length_map, length_replicate.
      replace (i - length value - (i - length value))%nat with 0%nat by lia.
      reflexivity.
Qed.

Lemma collection_onChange_example :
  (1 < length sampleCollection)%nat
  /\ length (collectionOnChange sampleCollection 1 {[ "name" := VStr "renamed" ]})
     = 3%nat.
Proof.
  split; [cbn; lia|].
  exact (proj1 (proj1 (collection_onChange_merges_at_index sampleCollection 1
                         {[ "name" := VStr "renamed" ]})
                 ltac:(cbn; lia))).
Defined.

(** X22.  Sorting never loses or duplicates an item: for an array without
    holes and an old index within it, [onSortEnd] gives a permutation of the
    array, of the same length, with the moved item at the new index (when
    that is within the array too); dropping an item where it was picked up
    changes nothing. *)
Theorem collection_onSortEnd_permutes
    (value : list Slot) (oldIndex newIndex : nat) :
  dense value ->
  (oldIndex < length value)%nat ->
  collectionOnSortEnd value oldIndex newIndex ≡ₚ value
  /\ length (collectionOnSortEnd value oldIndex newIndex) = length value
  /\ ((newIndex < length value)%nat ->
      collectionOnSortEnd value oldIndex newIndex !! newIndex = value !! oldIndex)
  /\ collectionOnSortEnd value oldIndex oldIndex = value.
Proof.
  intros Hdense Hold.
  destruct (lookup_lt_is_Some_2 value oldIndex Hold) as [slot Hslot].
  assert (Hread : readSlot slot = slot).
  { assert (Hne : slot <> Hole).
    { unfold dense in Hdense. rewrite List.Forall_forall in Hdense.
      apply Hdense. apply list_elem_of_In.
      eapply list_elem_of_lookup_2. exact Hslot. }
    destruct slot; [contradiction| |]; reflexivity. }
  assert (Hperm : forall n : nat,
             collectionOnSortEnd value oldIndex n ≡ₚ value).
  { intros n. unfold collectionOnSortEnd, arrayMove. rewrite Hslot, Hread.
    rewrite <- Permutation_middle, take_drop.
    symmetry. apply delete_Permutation. exact Hslot. }
  split; [apply Hperm|]. split; [apply Permutation_length, Hperm|]. split.
  - intros Hnew. unfold collectionOnSortEnd, arrayMove. rewrite Hslot, Hread.
    apply list_lookup_middle. rewrite length_take, length_delete by eauto. lia.
  - unfold collectionOnSortEnd, arrayMove. rewrite Hslot, Hread.
    rewrite delete_take_drop.
    rewrite take_app_le by (rewrite length_take; lia).
    rewrite take_take, Nat.min_id.
    rewrite drop_app_ge by (rewrite length_take; lia).
    rewrite length_take, Nat.min_l by lia.
    rewrite Nat.sub_diag, drop_0.
    apply take_drop_middle. exact Hslot.
Qed.

Lemma collection_onSortEnd_example :
  dense sampleCollection
  /\ (0 < length sampleCollection)%nat
  /\ collectionOnSortEnd sampleCollection 0 2 ≡ₚ sampleCollection
  /\ collectionOnSortEnd sampleCollection 0 2
     = [Item {[ "key" := VStr "b"; "name" := VStr "second" ]};
        Item {[ "key" := VStr "c"; "name" := VStr "third" ]};
        Item {[ "key" := VStr "a"; "name" := VStr "first" ]}].
Proof.
  assert (Hdense : dense sampleCollection)
    by (repeat constructor; discriminate).
  split; [exact Hdense|]. split; [cbn; lia|].
  split; [|reflexivity].
  exact (proj1 (collection_onSortEnd_permutes sampleCollection 0 2 Hdense
                  ltac:(cbn; lia))).
Defined.

(** ** A session without control changes *)

Lemma renderPassesFrom_quiet (controls : Snapshot) (causes : list RenderCause) :
  chartIsStale (Some controls) controls = false ->
  noControlChange causes = true ->
  Forall (fun pass => pass = (false, []))
         (renderPassesFrom (mkStaleState controls (Some controls)) causes).
Proof.
  intros Hfresh. induction causes as [|cause rest IH]; intros Hquiet;
    [constructor|].
  cbn [noControlChange forallb] in Hquiet.
  apply andb_true_iff in Hquiet as [Hcause Hquiet].
  assert (Hstate : applyCause (mkStaleState controls (Some controls)) cause
                   = mkStaleState controls (Some controls))
    by (destruct cause; [discriminate| |]; reflexivity).
  cbn [renderPassesFrom]. rewrite Hstate. constructor; [|exact (IH Hquiet)].
  unfold renderPass, renderLogEvents. cbn [props_controls lastQueriedControls].
  rewrite Hfresh. reflexivity.
Qed.

(** X23.  As long as the controls do not change the chart is never stale:
    in a session whose render passes are caused by query runs and by changes
    of other props or state only, every pass, the mount pass included, finds
    [chartIsStale] false and emits no telemetry. *)
Theorem never_stale_without_control_change (controls : Snapshot)
                                           (causes : list RenderCause) :
  snapshotWellFormed controls ->
  noControlChange causes = true ->
  Forall (fun pass => pass = (false, [])) (renderPasses controls causes).
Proof.
  intros Hwf Hquiet.
  assert (Hfresh : chartIsStale (Some controls) controls = false).
  { unfold chartIsStale.
    rewrite (filter_none _ (Object_keys controls)); [reflexivity|].
    intros name _. destruct (controls !! name) as [control|] eqn:Hname; [|reflexivity].
    apply staleValueChanged_refl. exact (Hwf name control Hname). }
  unfold renderPasses, mountStaleState. constructor.
  - unfold renderPass, renderLogEvents. cbn [props_controls lastQueriedControls].
    rewrite Hfresh. reflexivity.
  - apply renderPassesFrom_quiet; assumption.
Qed.

Lemma never_stale_without_control_change_example :
  snapshotWellFormed (filtersAre true)
  /\ noControlChange [OtherChange; QueryRun; OtherChange] = true
  /\ renderPasses (filtersAre true) [OtherChange; QueryRun; OtherChange]
     = [(false, []); (false, []); (false, []); (false, [])].
Proof.
  assert (Hwf : snapshotWellFormed (filtersAre true)).
  { intros name control Hlookup. unfold filtersAre in Hlookup.
    apply lookup_singleton_Some in Hlookup as [_ <-]. reflexivity. }
  split; [exact Hwf|]. split; [reflexivity|].
  pose proof (never_stale_without_control_change (filtersAre true)
                [OtherChange; QueryRun; OtherChange] Hwf eq_refl) as Hall.
  cbn [renderPasses renderPassesFrom] in Hall.
  repeat (apply Forall_cons in Hall as [-> Hall]). reflexivity.
Defined.
